(** * FastNet frame decoder: a shallow embedding of [decode_fastnet.py]

    The development follows the Python module function by function:
    [decode_format_and_data] (the per-record format interpreter),
    [decode_frame] (header validation and the body segmentation loop) and
    [decode_ascii_frame] (the single-record text path).

    Conventions of the embedding:
    - a Python [bytes] object is a [list byte]; indexing it yields an [int],
      obtained here with [byte_val];
    - Python [int]s are [Z]; bit operations are [Z.land], [Z.lor],
      [Z.shiftl], [Z.shiftr];
    - an exception is a value of [exn]; code that may raise lives in the
      [outcome] monad, and [try: ... except Exception:] is [try_except];
    - the [while] loop of [decode_frame] is iterated with explicit fuel;
      running out of fuel for every amount of fuel is divergence;
    - [int / int] yields a Python float, the double nearest to the exact
      quotient; the embedding keeps the exact quotient as a [Q];
    - calls to the logger only write to the log and are left out. *)

From Stdlib Require Import ZArith QArith_base Lia.
From Stdlib Require Import Strings.Ascii Strings.String Strings.Byte.
From stdpp Require Import base option list gmap strings.

Local Close Scope Q_scope.
Local Open Scope Z_scope.

(** ** Python primitives *)

Module Py.

(** Exceptions that the decoder can meet.  [UtilityError] stands for
    whatever an external helper may raise. *)
Inductive exn : Type :=
| IndexError
| ValueError (msg : string)
| UnboundLocalError (name : string)
| ZeroDivisionError
| UnicodeDecodeError
| UtilityError (msg : string).

(** [str(e)]. *)
Definition exn_str (e : exn) : string :=
  match e with
  | IndexError => "index out of range"
  | ValueError msg => msg
  | UnboundLocalError name =>
      "cannot access local variable '" +:+ name
        +:+ "' where it is not associated with a value"
  | ZeroDivisionError => "division by zero"
  | UnicodeDecodeError => "'ascii' codec can't decode byte"
  | UtilityError msg => msg
  end.

Inductive outcome (A : Type) : Type :=
| Return (a : A)
| Raise (e : exn).
Arguments Return {A} a.
Arguments Raise {A} e.

Definition bind {A B} (m : outcome A) (k : A -> outcome B) : outcome B :=
  match m with
  | Return a => k a
  | Raise e => Raise e
  end.

(** [try: m  except Exception as e: h e]. *)
Definition try_except {A} (m : outcome A) (h : exn -> outcome A) : outcome A :=
  match m with
  | Return a => Return a
  | Raise e => h e
  end.

(** Evaluating a comprehension whose element expression may raise. *)
Fixpoint for_each {A B} (f : A -> outcome B) (l : list A) : outcome (list B) :=
  match l with
  | [] => Return []
  | x :: l' =>
      bind (f x) (fun y => bind (for_each f l') (fun ys => Return (y :: ys)))
  end.

(** Reading a local variable; [None] is a name that no assignment has
    bound yet. *)
Definition read_local {A} (name : string) (v : option A) : outcome A :=
  match v with
  | Some a => Return a
  | None => Raise (UnboundLocalError name)
  end.

Definition byte_val (b : byte) : Z := Z.of_N (Byte.to_N b).

Definition len {A} (l : list A) : Z := Z.of_nat (length l).

(** [l[i]]: a negative index counts from the end. *)
Definition getitem {A} (l : list A) (i : Z) : outcome A :=
  let j := if i <? 0 then i + len l else i in
  if (j <? 0) || (len l <=? j) then Raise IndexError
  else match l !! Z.to_nat j with
       | Some x => Return x
       | None => Raise IndexError
       end.

(** A slice bound is clamped to [0 .. len]. *)
Definition slice_bound (n i : Z) : Z :=
  if i <? 0 then Z.max 0 (i + n) else Z.min i n.

(** [l[lo:hi]]. *)
Definition slice {A} (l : list A) (lo hi : Z) : list A :=
  let a := slice_bound (len l) lo in
  let b := slice_bound (len l) hi in
  take (Z.to_nat (b - a)) (drop (Z.to_nat a) l).

(** [l[lo:]]. *)
Definition slice_from {A} (l : list A) (lo : Z) : list A :=
  slice l lo (len l).

(** [d.get(k, default)]. *)
Definition dict_get {V} (d : gmap Z V) (k : Z) (dflt : V) : V :=
  default dflt (d !! k).

(** [int.from_bytes(data, byteorder="big", signed=...)]. *)
Definition unsigned_big (data : list byte) : Z :=
  fold_left (fun acc b => acc * 256 + byte_val b) data 0.

Definition int_from_bytes_big (signed : bool) (data : list byte) : Z :=
  let u := unsigned_big data in
  let bits := 8 * len data in
  if signed && (0 <? bits) && Z.testbit u (bits - 1) then u - 2 ^ bits else u.

(** [a / b] on ints. *)
Definition truediv (a b : Z) : outcome Q :=
  if b =? 0 then Raise ZeroDivisionError else Return (Qmake a (Z.to_pos b)).

(** One hexadecimal digit, [d] in [0 .. 15]. *)
Definition hex_digit (upper : bool) (d : Z) : ascii :=
  if d <? 10 then ascii_of_N (Z.to_N (48 + d))
  else ascii_of_N (Z.to_N ((if upper then 55 else 87) + d)).

Definition hex_byte (upper : bool) (b : byte) : string :=
  String (hex_digit upper (Z.shiftr (byte_val b) 4))
    (String (hex_digit upper (Z.land (byte_val b) 15)) EmptyString).

(** [f"{b:02X}"] for a byte. *)
Definition format_02X (b : byte) : string := hex_byte true b.

(** [data.hex()]. *)
Definition hex (data : list byte) : string :=
  fold_right (fun b s => hex_byte false b +:+ s) "" data.

(** [data.decode("ascii")]. *)
Fixpoint decode_ascii (data : list byte) : outcome string :=
  match data with
  | [] => Return EmptyString
  | b :: data' =>
      if byte_val b <? 128
      then bind (decode_ascii data') (fun s => Return (String (ascii_of_byte b) s))
      else Raise UnicodeDecodeError
  end.

(** [str.isspace] on the ASCII range. *)
Definition is_space (c : ascii) : bool :=
  let n := Z.of_N (N_of_ascii c) in
  ((9 <=? n) && (n <=? 13)) || ((28 <=? n) && (n <=? 32)).

Fixpoint lstrip (s : list ascii) : list ascii :=
  match s with
  | c :: s' => if is_space c then lstrip s' else s
  | [] => []
  end.

(** [s.strip()]. *)
Definition strip (s : string) : string :=
  string_of_list_ascii
    (rev (lstrip (rev (lstrip (list_ascii_of_string s))))).

End Py.

Import Py.

Notation "'let!' x ':=' m 'in' k" := (Py.bind m (fun x => k))
  (at level 10, x name, m at level 100, k at level 200).

(** ** Data model *)

(** The [raw] entry of a decoded value; its shape depends on the format
    code. *)
Inductive raw_value : Type :=
| RawInt (n : Z)
| RawSegmentUnsigned (segment_code unsigned_value : Z)
| RawSegmentSigned (segment_code signed_value : Z)
| RawTimer (useless hours minutes seconds : Z)
| RawHexList (l : list string)
| RawPair (first_raw second_raw : Z).

(** The [interpreted] entry: a float, a [datetime.timedelta] (kept as its
    total number of seconds), a text, or the [{"first", "second"}] pair. *)
Inductive interpreted_value : Type :=
| Scaled (q : Q)
| Timedelta (total_seconds : Z)
| Text (s : string)
| ScaledPair (first second : Q).

(** The dictionary returned by [decode_format_and_data]. *)
Record DecodedValue : Type := {
  dv_channel_id : string;
  dv_format_byte : string;
  dv_data_bytes : string;
  dv_divisor : Z;
  dv_digits : Z;
  dv_format_bits : Z;
  dv_raw : raw_value;
  dv_interpreted : interpreted_value
}.

(** The entry built by [decode_ascii_frame]. *)
Record AsciiValue : Type := {
  av_channel_id : string;
  av_format_byte : string;
  av_data_bytes : string;
  av_raw : string;
  av_interpreted : string
}.

(** What a frame decoder returns: the decoded dictionary, or
    [{"error": msg}]. *)
Inductive frame_result (V : Type) : Type :=
| DecodedFrame (to_address from_address command : string)
               (values : gmap string V)
| FrameError (error : string).
Arguments DecodedFrame {V} _ _ _ _.
Arguments FrameError {V} _.

(** The local variables that the body loop of [decode_frame] updates. *)
Record loop_state : Type := {
  index : Z;
  values : gmap string (option DecodedValue)
}.

(** Statements of the loop body: they may raise, and what they assigned
    before raising stays assigned. *)
Definition stm (A : Type) : Type := loop_state -> outcome A * loop_state.

Definition st_bind {A B} (m : stm A) (k : A -> stm B) : stm B :=
  fun s => match m s with
           | (Return a, s') => k a s'
           | (Raise e, s') => (Raise e, s')
           end.

Definition st_lift {A} (m : outcome A) : stm A := fun s => (m, s).

Definition st_raise {A} (e : exn) : stm A := fun s => (Raise e, s).

Definition get_index : stm Z := fun s => (Return (index s), s).

Definition set_index (i : Z) : stm unit :=
  fun s => (Return tt, {| index := i; values := values s |}).

Definition store_value (name : string) (v : option DecodedValue) : stm unit :=
  fun s => (Return tt, {| index := index s; values := <[name := v]> (values s) |}).

Notation "'do!' x ':=' m 'in' k" := (st_bind m (fun x => k))
  (at level 10, x name, m at level 100, k at level 200).

(** A record of the body as the segmenter reads it: channel id, format
    byte, payload. *)
Record channel_record : Type := {
  rec_channel_id : byte;
  rec_format_byte : byte;
  rec_payload : list byte
}.

Definition encode_record (r : channel_record) : list byte :=
  rec_channel_id r :: rec_format_byte r :: rec_payload r.

Definition encode_records (recs : list channel_record) : list byte :=
  concat (map encode_record recs).

(** A checksum to run the decoder on concrete frames: the two's complement
    of the byte sum. *)
Definition sum_checksum (data : list byte) : Z :=
  (256 - fold_right (fun b acc => byte_val b + acc) 0 data mod 256) mod 256.

(** A segment table to run the decoder on concrete frames. *)
Definition sample_segment_char (b : byte) : outcome string :=
  if byte_val b =? 0 then Return " " else Return "?".

(** A format-size table to run the decoder on concrete frames: two bytes
    after a format code 0x01, nothing after any other code. *)
Definition sample_format_sizes : gmap Z Z := <[1 := 2]> ∅.

(** ** The decoder *)

Section Decoder.

(** [utils.calculate_checksum] and [utils.convert_segment_b_to_char]. *)
Variable calculate_checksum : list byte -> Z.
Variable convert_segment_b_to_char : byte -> outcome string.

(** The tables of [mappings]. *)
Variable ADDRESS_LOOKUP : gmap Z string.
Variable COMMAND_LOOKUP : gmap Z string.
Variable CHANNEL_LOOKUP : gmap Z string.
Variable FORMAT_SIZE_MAP : gmap Z Z.

Definition divisor_map : gmap Z Z :=
  <[0 := 1]> (<[1 := 10]> (<[2 := 100]> (<[3 := 1000]> ∅))).

Definition digits_map : gmap Z Z :=
  <[0 := 1]> (<[1 := 2]> (<[2 := 3]> (<[3 := 4]> ∅))).

(** The [if]/[elif] chain of [decode_format_and_data]: [Return None] is
    an early [return None], [Return (Some (raw, interpreted))] falls
    through to the result. *)
Definition dispatch (format_bits divisor : Z) (data_bytes : list byte)
  : outcome (option (raw_value * interpreted_value)) :=
  if format_bits =? 1 then
    if negb (len data_bytes =? 2) then Return None else
    let raw_value := int_from_bytes_big true data_bytes in
    let! interpreted_value := truediv raw_value divisor in
    Return (Some (RawInt raw_value, Scaled interpreted_value))
  else if format_bits =? 2 then
    if negb (len data_bytes =? 2) then Return None else
    let! b0 := getitem data_bytes 0 in
    let segment_code := Z.land (Z.shiftr (byte_val b0) 2) 63 in
    let! b0' := getitem data_bytes 0 in
    let! b1 := getitem data_bytes 1 in
    let unsigned_value :=
      Z.lor (Z.shiftl (Z.land (byte_val b0') 3) 8) (byte_val b1) in
    let! interpreted_value := truediv unsigned_value divisor in
    Return (Some (RawSegmentUnsigned segment_code unsigned_value,
                  Scaled interpreted_value))
  else if format_bits =? 3 then
    if negb (len data_bytes =? 2) then Return None else
    let! b0 := getitem data_bytes 0 in
    let segment_code := Z.land (Z.shiftr (byte_val b0) 1) 127 in
    let! b0' := getitem data_bytes 0 in
    let! b1 := getitem data_bytes 1 in
    let unsigned_value :=
      Z.lor (Z.shiftl (Z.land (byte_val b0') 1) 8) (byte_val b1) in
    let is_negative := negb (Z.land segment_code 64 =? 0) in
    (* signed_value = signed_value if not is_negative else -unsigned_value:
       no earlier statement binds signed_value *)
    let! signed_value :=
      (if negb is_negative then read_local "signed_value" None
       else Return (- unsigned_value)) in
    let! interpreted_value := truediv unsigned_value divisor in
    Return (Some (RawSegmentSigned segment_code signed_value,
                  Scaled interpreted_value))
  else if format_bits =? 4 then
    if negb (len data_bytes =? 4) then Return None else
    let! segment_code := getitem data_bytes 0 in
    let unsigned_value := int_from_bytes_big false (slice_from data_bytes 1) in
    let! interpreted_value := truediv unsigned_value divisor in
    Return (Some (RawSegmentUnsigned (byte_val segment_code) unsigned_value,
                  Scaled interpreted_value))
  else if format_bits =? 5 then
    if negb (len data_bytes =? 4) then Return None else
    let! useless := getitem data_bytes 0 in
    let! hours := getitem data_bytes 1 in
    let! minutes := getitem data_bytes 2 in
    let! seconds := getitem data_bytes 3 in
    let interpreted_value :=
      Timedelta (byte_val hours * 3600 + byte_val minutes * 60
                 + byte_val seconds) in
    Return (Some (RawTimer (byte_val useless) (byte_val hours)
                    (byte_val minutes) (byte_val seconds),
                  interpreted_value))
  else if format_bits =? 6 then
    if negb (len data_bytes =? 4) then Return None else
    let! chars := for_each convert_segment_b_to_char data_bytes in
    let segment_text := fold_right String.append EmptyString chars in
    let raw_value := RawHexList (map format_02X data_bytes) in
    Return (Some (raw_value, Text segment_text))
  else if format_bits =? 7 then
    if negb (len data_bytes =? 4) then Return None else
    let! b2 := getitem data_bytes 2 in
    let msb := Z.land (Z.shiftr (byte_val b2) 1) 127 in
    let! lsb := getitem data_bytes 3 in
    let unsigned_value := Z.lor (Z.shiftl msb 8) (byte_val lsb) in
    let! interpreted_value := truediv unsigned_value divisor in
    Return (Some (RawInt unsigned_value, Scaled interpreted_value))
  else if format_bits =? 8 then
    if negb (len data_bytes =? 2) then Return None else
    let! b0 := getitem data_bytes 0 in
    let segment_code := Z.land (Z.shiftr (byte_val b0) 1) 127 in
    let! b0' := getitem data_bytes 0 in
    let! b1 := getitem data_bytes 1 in
    let unsigned_value :=
      Z.lor (Z.shiftl (Z.land (byte_val b0') 1) 8) (byte_val b1) in
    let! interpreted_value := truediv unsigned_value divisor in
    Return (Some (RawSegmentUnsigned segment_code unsigned_value,
                  Scaled interpreted_value))
  else if format_bits =? 10 then
    if negb (len data_bytes =? 4) then Return None else
    let first_value := int_from_bytes_big true (slice data_bytes 0 2) in
    let second_value := int_from_bytes_big true (slice_from data_bytes 2) in
    let! interpreted_first_value := truediv first_value divisor in
    let! interpreted_second_value := truediv second_value divisor in
    Return (Some (RawPair first_value second_value,
                  ScaledPair interpreted_first_value interpreted_second_value))
  else Return None.

(** The [try] block of [decode_format_and_data]. *)
Definition decode_format_and_data_try
    (channel_id format_byte : byte) (data_bytes : list byte)
  : outcome (option DecodedValue) :=
  let divisor_bits := Z.land (Z.shiftr (byte_val format_byte) 6) 3 in
  let digits_bits := Z.land (Z.shiftr (byte_val format_byte) 4) 3 in
  let format_bits := Z.land (byte_val format_byte) 15 in
  let divisor := dict_get divisor_map divisor_bits 1 in
  let digits := dict_get digits_map digits_bits 1 in
  if len data_bytes =? 0 then Return None else
  let! branch := dispatch format_bits divisor data_bytes in
  match branch with
  | None => Return None
  | Some (raw_value, interpreted_value) =>
      Return (Some {| dv_channel_id := "0x" +:+ format_02X channel_id;
                      dv_format_byte := "0x" +:+ format_02X format_byte;
                      dv_data_bytes := hex data_bytes;
                      dv_divisor := divisor;
                      dv_digits := digits;
                      dv_format_bits := format_bits;
                      dv_raw := raw_value;
                      dv_interpreted := interpreted_value |})
  end.

(** [decode_format_and_data]: the [try] block under
    [except Exception: return None]. *)
Definition decode_format_and_data
    (channel_id format_byte : byte) (data_bytes : list byte)
  : outcome (option DecodedValue) :=
  try_except (decode_format_and_data_try channel_id format_byte data_bytes)
             (fun _ => Return None).

(** The fallback name [f"Unknown (0x{code:02X})"]. *)
Definition unknown_name (code : byte) : string :=
  "Unknown (0x" +:+ format_02X code +:+ ")".

Definition lookup_name (table : gmap Z string) (code : byte) : string :=
  dict_get table (byte_val code) (unknown_name code).

(** The [try] block inside the [while] loop of [decode_frame]. *)
Definition record_try (body : list byte) : stm unit :=
  do! i := get_index in
  do! channel_id := st_lift (getitem body i) in
  do! format_byte := st_lift (getitem body (i + 1)) in
  do! _ := set_index (i + 2) in
  let data_length :=
    dict_get FORMAT_SIZE_MAP (Z.land (byte_val format_byte) 15) 0 in
  do! i := get_index in
  if len body <? i + data_length then
    st_raise (ValueError ("Incomplete data for channel 0x"
                          +:+ format_02X channel_id))
  else
    let data_bytes := slice body i (i + data_length) in
    do! _ := set_index (i + data_length) in
    do! decoded_value :=
      st_lift (decode_format_and_data channel_id format_byte data_bytes) in
    let channel_name := lookup_name CHANNEL_LOOKUP channel_id in
    store_value channel_name decoded_value.

(** One turn of the loop: the [try] block, and [except Exception] which
    only logs. *)
Definition record_step (body : list byte) (st : loop_state) : loop_state :=
  snd (record_try body st).

(** [while index < len(body)]; [None] when the fuel does not suffice. *)
Fixpoint body_loop (fuel : nat) (body : list byte) (st : loop_state)
  : option loop_state :=
  match fuel with
  | O => None
  | S fuel' =>
      if index st <? len body
      then body_loop fuel' body (record_step body st)
      else Some st
  end.

(** The header reads shared by both entry points (lines 19-25 and
    98-104). *)
Definition header_fields (frame : list byte)
  : outcome (byte * byte * byte * byte * byte * list byte * byte) :=
  let! to_address := getitem frame 0 in
  let! from_address := getitem frame 1 in
  let! body_size := getitem frame 2 in
  let! command := getitem frame 3 in
  let! header_checksum := getitem frame 4 in
  let body := slice frame 5 (-1) in
  let! body_checksum := getitem frame (-1) in
  Return (to_address, from_address, body_size, command, header_checksum,
          body, body_checksum).

(** [decode_frame]; [None] when the body loop does not finish within
    the fuel. *)
Definition decode_frame (fuel : nat) (frame : list byte)
  : option (frame_result (option DecodedValue)) :=
  match header_fields frame with
  | Raise e => Some (FrameError (exn_str e))
  | Return (to_address, from_address, body_size, command, header_checksum,
            body, body_checksum) =>
      if negb (calculate_checksum (slice frame 0 4) =? byte_val header_checksum)
      then Some (FrameError "Header checksum mismatch")
      else if negb (calculate_checksum body =? byte_val body_checksum)
      then Some (FrameError "Body checksum mismatch")
      else
        match body_loop fuel body {| index := 0; values := ∅ |} with
        | None => None
        | Some st =>
            Some (DecodedFrame (lookup_name ADDRESS_LOOKUP to_address)
                               (lookup_name ADDRESS_LOOKUP from_address)
                               (lookup_name COMMAND_LOOKUP command)
                               (values st))
        end
  end.

(** [decode_ascii_frame]. *)
Definition decode_ascii_frame_try (frame : list byte)
  : outcome (frame_result AsciiValue) :=
  let! hdr := header_fields frame in
  let '(to_address, from_address, body_size, command, header_checksum,
        body, body_checksum) := hdr in
  let! channel_id := getitem body 0 in
  let! format_byte := getitem body 1 in
  let data_bytes := slice_from body 2 in
  let channel_name := lookup_name CHANNEL_LOOKUP channel_id in
  match decode_ascii data_bytes with
  | Raise _ => Return (FrameError "ASCII decode failed")
  | Return text =>
      let ascii_text := strip text in
      Return (DecodedFrame
                (lookup_name ADDRESS_LOOKUP to_address)
                (lookup_name ADDRESS_LOOKUP from_address)
                (lookup_name COMMAND_LOOKUP command)
                {[ channel_name :=
                     {| av_channel_id := "0x" +:+ format_02X channel_id;
                        av_format_byte := "0x" +:+ format_02X format_byte;
                        av_data_bytes := hex data_bytes;
                        av_raw := ascii_text;
                        av_interpreted := ascii_text |} ]})
  end.

Definition decode_ascii_frame (frame : list byte) : frame_result AsciiValue :=
  match decode_ascii_frame_try frame with
  | Return r => r
  | Raise e => FrameError (exn_str e)
  end.

(** *** Notions used to state the properties *)

(** What the caller of [decode_format_and_data] receives. *)
Definition decode_result
    (channel_id format_byte : byte) (data_bytes : list byte)
  : option DecodedValue :=
  match decode_format_and_data_try channel_id format_byte data_bytes with
  | Return v => v
  | Raise _ => None
  end.

(** The divisor as the format table gives it: bits 7-6 of the format
    byte through [{00:1, 01:10, 10:100, 11:1000}]. *)
Definition divisor_of (format_byte : byte) : Z :=
  match Z.shiftr (byte_val format_byte) 6 with
  | 0 => 1
  | 1 => 10
  | 2 => 100
  | _ => 1000
  end.

(** The format code, bits 3-0 of the format byte. *)
Definition format_code (format_byte : byte) : Z :=
  Z.land (byte_val format_byte) 15.

(** The digits hint: bits 5-4 through [{00:1, 01:2, 10:3, 11:4}]. *)
Definition digits_of (format_byte : byte) : Z :=
  Z.land (Z.shiftr (byte_val format_byte) 4) 3 + 1.

(** The exact quotient [n / divisor] that [interpreted] stands for. *)
Definition scaled (n : Z) (format_byte : byte) : Q :=
  Qmake n (Z.to_pos (divisor_of format_byte)).

(** Two's-complement reading of the 16-bit big-endian pair [hi lo]. *)
Definition twos_complement16 (hi lo : byte) : Z :=
  let u := 256 * byte_val hi + byte_val lo in
  if u <? 32768 then u else u - 65536.

(** The result dictionary around given [raw] and [interpreted] entries. *)
Definition result_of (channel_id format_byte : byte) (data_bytes : list byte)
    (raw : raw_value) (interpreted : interpreted_value) : DecodedValue :=
  {| dv_channel_id := "0x" +:+ format_02X channel_id;
     dv_format_byte := "0x" +:+ format_02X format_byte;
     dv_data_bytes := hex data_bytes;
     dv_divisor := divisor_of format_byte;
     dv_digits := digits_of format_byte;
     dv_format_bits := format_code format_byte;
     dv_raw := raw;
     dv_interpreted := interpreted |}.

(** The payload length each supported format code requires (the table
    of the format interpreter); [None] for an unsupported code. *)
Definition expected_length (code : Z) : option Z :=
  if (code =? 1) || (code =? 2) || (code =? 3) || (code =? 8) then Some 2
  else if (code =? 4) || (code =? 5) || (code =? 6) || (code =? 7)
          || (code =? 10) then Some 4
  else None.

(** The number a [raw] entry records, when it records a single one. *)
Definition raw_number (raw : raw_value) : option Z :=
  match raw with
  | RawInt n => Some n
  | RawSegmentUnsigned _ unsigned_value => Some unsigned_value
  | _ => None
  end.

(** [interpreted] is the number(s) recorded in [raw] over the divisor of
    the format byte. *)
Definition scaled_from_raw (format_byte : byte) (raw : raw_value)
    (interpreted : interpreted_value) : Prop :=
  match interpreted with
  | Scaled q =>
      exists n, raw_number raw = Some n /\ q = scaled n format_byte
  | ScaledPair q1 q2 =>
      exists n1 n2, raw = RawPair n1 n2 /\ q1 = scaled n1 format_byte
                    /\ q2 = scaled n2 format_byte
  | Timedelta _ | Text _ => False
  end.

(** Two format bytes that agree on every bit but the digits bits 5-4. *)
Definition same_but_digits (fb1 fb2 : byte) : Prop :=
  Z.land (byte_val fb1) 207 = Z.land (byte_val fb2) 207.

(** The payload length that the segmenter expects after a format byte. *)
Definition data_length_of (format_byte : byte) : Z :=
  dict_get FORMAT_SIZE_MAP (format_code format_byte) 0.

(** A record whose payload has the length the segmenter will slice. *)
Definition record_sized (r : channel_record) : Prop :=
  len (rec_payload r) = data_length_of (rec_format_byte r).

(** A record that the format interpreter rejects: empty payload, or a
    payload length other than the one its format code requires (which
    includes every unsupported code). *)
Definition record_rejected (r : channel_record) : Prop :=
  len (rec_payload r) = 0 \/
  expected_length (format_code (rec_format_byte r))
    <> Some (len (rec_payload r)).

Definition record_name (r : channel_record) : string :=
  lookup_name CHANNEL_LOOKUP (rec_channel_id r).

Definition record_result (r : channel_record) : option DecodedValue :=
  decode_result (rec_channel_id r) (rec_format_byte r) (rec_payload r).

(** The assignment [decoded_data["values"][channel_name] = decoded_value]
    for one record. *)
Definition store_record
    (m : gmap string (option DecodedValue)) (r : channel_record)
  : gmap string (option DecodedValue) :=
  <[record_name r := record_result r]> m.

(** The frame that carries the records [recs] between a header and the
    body checksum. *)
Definition frame_of (a b c d hc : byte) (recs : list channel_record)
    (bc : byte) : list byte :=
  [a; b; c; d; hc] ++ encode_records recs ++ [bc].

Definition decoded_header (a b d : byte)
    (vals : gmap string (option DecodedValue))
  : frame_result (option DecodedValue) :=
  DecodedFrame (lookup_name ADDRESS_LOOKUP a) (lookup_name ADDRESS_LOOKUP b)
               (lookup_name COMMAND_LOOKUP d) vals.

(** A size table whose byte counts are even, as the payload lengths 2
    and 4 of the format interpreter are. *)
Definition even_sizes : Prop :=
  forall code size,
    FORMAT_SIZE_MAP !! code = Some size -> 0 <= size /\ Z.even size = true.

(** The text of a payload whose bytes are all ASCII. *)
Definition text_of_bytes (data : list byte) : string :=
  string_of_list_ascii (map ascii_of_byte data).

(** A text with no whitespace at either end. *)
Definition trimmed (s : string) : Prop :=
  (forall c, head (list_ascii_of_string s) = Some c -> is_space c = false)
  /\ (forall c, last (list_ascii_of_string s) = Some c -> is_space c = false).

(** The entry that [decode_ascii_frame] stores for a channel. *)
Definition ascii_value_of (channel_id format_byte : byte)
    (data_bytes : list byte) (ascii_text : string) : AsciiValue :=
  {| av_channel_id := "0x" +:+ format_02X channel_id;
     av_format_byte := "0x" +:+ format_02X format_byte;
     av_data_bytes := hex data_bytes;
     av_raw := ascii_text;
     av_interpreted := ascii_text |}.

(** *** Python primitives on concrete shapes *)

Lemma byte_val_range (b : byte) : 0 <= byte_val b < 256.
Proof.
  unfold byte_val. pose proof (Byte.to_N_bounded b) as Hb. lia.
Qed.

Lemma byte_val_inj (b1 b2 : byte) : byte_val b1 = byte_val b2 -> b1 = b2.
Proof.
  unfold byte_val. intros Hval.
  assert (Byte.to_N b1 = Byte.to_N b2) as HN by lia.
  pose proof (Byte.of_to_N b1) as Hb1. rewrite HN, Byte.of_to_N in Hb1.
  congruence.
Qed.

Lemma len_nonneg {A} (l : list A) : 0 <= len l.
Proof. unfold len. lia. Qed.

Lemma len_app {A} (l1 l2 : list A) : len (l1 ++ l2) = len l1 + len l2.
Proof. unfold len. rewrite length_app. lia. Qed.

Lemma len_cons {A} (x : A) (l : list A) : len (x :: l) = 1 + len l.
Proof. unfold len. cbn [length]. lia. Qed.

Lemma getitem_app {A} (pre : list A) (x : A) (rest : list A) :
  getitem (pre ++ x :: rest) (len pre) = Return x.
Proof.
  unfold getitem.
  pose proof (len_nonneg pre) as Hpre. pose proof (len_nonneg rest) as Hrest.
  destruct (Z.ltb_spec (len pre) 0) as [?|_]; [lia|].
  rewrite len_app, len_cons.
  destruct (Z.ltb_spec (len pre) 0) as [?|_]; [lia|].
  destruct (Z.leb_spec (len pre + (1 + len rest)) (len pre)) as [?|_]; [lia|].
  cbn [orb]. unfold len. rewrite Nat2Z.id.
  rewrite lookup_app_r by lia. rewrite Nat.sub_diag. reflexivity.
Qed.

Lemma getitem_end {A} (l : list A) (i : Z) :
  len l <= i -> getitem l i = Raise IndexError.
Proof.
  intros Hi. unfold getitem. pose proof (len_nonneg l).
  destruct (Z.ltb_spec i 0) as [?|_]; [lia|].
  destruct (Z.ltb_spec i 0) as [?|_]; [lia|].
  destruct (Z.leb_spec (len l) i) as [_|?]; [reflexivity|lia].
Qed.

Lemma getitem_last {A} (pre : list A) (x : A) :
  getitem (pre ++ [x]) (-1) = Return x.
Proof.
  unfold getitem. change (-1 <? 0) with true. cbn match.
  rewrite len_app, len_cons. change (len (@nil A)) with 0.
  pose proof (len_nonneg pre).
  destruct (Z.ltb_spec (-1 + (len pre + (1 + 0))) 0) as [?|_]; [lia|].
  destruct (Z.leb_spec (len pre + (1 + 0)) (-1 + (len pre + (1 + 0))))
    as [?|_]; [lia|].
  cbn [orb]. replace (-1 + (len pre + (1 + 0))) with (len pre) by lia.
  unfold len. rewrite Nat2Z.id.
  rewrite lookup_app_r by lia. rewrite Nat.sub_diag. reflexivity.
Qed.

Lemma slice_app {A} (pre mid post : list A) :
  slice (pre ++ mid ++ post) (len pre) (len pre + len mid) = mid.
Proof.
  unfold slice, slice_bound. rewrite !len_app.
  pose proof (len_nonneg pre). pose proof (len_nonneg mid).
  pose proof (len_nonneg post).
  destruct (Z.ltb_spec (len pre) 0) as [?|_]; [lia|].
  destruct (Z.ltb_spec (len pre + len mid) 0) as [?|_]; [lia|].
  rewrite !Z.min_l by lia.
  replace (len pre + len mid - len pre) with (len mid) by lia.
  unfold len. rewrite !Nat2Z.id.
  rewrite drop_app_length. apply take_app_length.
Qed.

Lemma slice_body {A} (hdr body : list A) (x : A) :
  len hdr = 5 -> slice (hdr ++ body ++ [x]) 5 (-1) = body.
Proof.
  intros Hhdr. unfold slice, slice_bound. rewrite !len_app, Hhdr.
  change (len [x]) with 1. pose proof (len_nonneg body).
  change (5 <? 0) with false. change (-1 <? 0) with true. cbn match.
  rewrite Z.min_l by lia. rewrite Z.max_r by lia.
  replace (-1 + (5 + (len body + 1)) - 5) with (len body) by lia.
  assert (Z.to_nat 5 = length hdr) as -> by (unfold len in Hhdr; lia).
  unfold len. rewrite Nat2Z.id.
  rewrite drop_app_length. apply take_app_length.
Qed.

(** *** The format byte *)

Lemma divisor_lookup (format_byte : byte) :
  dict_get divisor_map (Z.land (Z.shiftr (byte_val format_byte) 6) 3) 1
  = divisor_of format_byte.
Proof. destruct format_byte; vm_compute; reflexivity. Qed.

Lemma digits_lookup (format_byte : byte) :
  dict_get digits_map (Z.land (Z.shiftr (byte_val format_byte) 4) 3) 1
  = digits_of format_byte.
Proof. destruct format_byte; vm_compute; reflexivity. Qed.

Lemma divisor_of_cases (format_byte : byte) :
  divisor_of format_byte = 1 \/ divisor_of format_byte = 10 \/
  divisor_of format_byte = 100 \/ divisor_of format_byte = 1000.
Proof. unfold divisor_of. repeat case_match; auto. Qed.

Lemma truediv_divisor (n : Z) (format_byte : byte) :
  truediv n (divisor_of format_byte) = Return (scaled n format_byte).
Proof.
  unfold truediv, scaled.
  destruct (Z.eqb_spec (divisor_of format_byte) 0) as [H0|_]; [|reflexivity].
  destruct (divisor_of_cases format_byte) as [H|[H|[H|H]]]; lia.
Qed.

(** The [try] block, with the format byte read through [divisor_of],
    [digits_of] and [format_code]. *)
Lemma decode_try_dispatch (channel_id format_byte : byte) (data_bytes : list byte) :
  decode_format_and_data_try channel_id format_byte data_bytes =
  if len data_bytes =? 0 then Return None else
  let! branch :=
    dispatch (format_code format_byte) (divisor_of format_byte) data_bytes in
  Return (match branch with
          | None => None
          | Some (raw, interpreted) =>
              Some (result_of channel_id format_byte data_bytes raw interpreted)
          end).
Proof.
  unfold decode_format_and_data_try, result_of.
  rewrite divisor_lookup, digits_lookup. fold (format_code format_byte).
  destruct (len data_bytes =? 0); [reflexivity|].
  destruct (dispatch _ _ _) as [[[raw interp]|]|e]; reflexivity.
Qed.

Lemma decode_format_and_data_result (channel_id format_byte : byte)
    (data_bytes : list byte) :
  decode_format_and_data channel_id format_byte data_bytes
  = Return (decode_result channel_id format_byte data_bytes).
Proof.
  unfold decode_format_and_data, decode_result, try_except.
  destruct (decode_format_and_data_try _ _ _); reflexivity.
Qed.

(** *** Integers from bytes *)

Lemma testbit_top (u n : Z) :
  0 < n -> 0 <= u < 2 ^ n ->
  Z.testbit u (n - 1) = negb (u <? 2 ^ (n - 1)).
Proof.
  intros Hn Hu.
  assert (2 ^ n = 2 * 2 ^ (n - 1)) as Hpow.
  { replace n with (Z.succ (n - 1)) at 1 by lia. apply Z.pow_succ_r. lia. }
  assert (0 < 2 ^ (n - 1)) as Hpos by (apply Z.pow_pos_nonneg; lia).
  destruct (Z.ltb_spec u (2 ^ (n - 1))) as [Hlt|Hge]; cbn [negb].
  - apply Z.testbit_false; [lia|]. rewrite Z.div_small by lia. reflexivity.
  - apply Z.testbit_true; [lia|].
    replace (u / 2 ^ (n - 1)) with 1; [reflexivity|].
    apply Z.div_unique with (r := u - 2 ^ (n - 1)); lia.
Qed.

Lemma int16_signed (hi lo : byte) :
  int_from_bytes_big true [hi; lo] = twos_complement16 hi lo.
Proof.
  unfold int_from_bytes_big, unsigned_big, twos_complement16.
  cbn [fold_left]. change (8 * len [hi; lo]) with 16.
  pose proof (byte_val_range hi). pose proof (byte_val_range lo).
  change (0 <? 16) with true. cbn [andb].
  rewrite (testbit_top _ 16) by (change (2 ^ 16) with 65536; lia).
  change (2 ^ (16 - 1)) with 32768. change (2 ^ 16) with 65536.
  replace ((0 * 256 + byte_val hi) * 256 + byte_val lo)
    with (256 * byte_val hi + byte_val lo) by lia.
  destruct (Z.ltb_spec (256 * byte_val hi + byte_val lo) 32768); reflexivity.
Qed.

Lemma int24_unsigned (b1 b2 b3 : byte) :
  int_from_bytes_big false [b1; b2; b3]
  = 65536 * byte_val b1 + 256 * byte_val b2 + byte_val b3.
Proof.
  unfold int_from_bytes_big, unsigned_big. cbn [fold_left andb]. lia.
Qed.

(** *** Bit fields of a byte *)

Lemma sign_flag_bit (b : byte) :
  (Z.land (Z.land (Z.shiftr (byte_val b) 1) 127) 64 =? 0)
  = (byte_val b <? 128).
Proof. destruct b; reflexivity. Qed.

Lemma high_seven_bits (b : byte) :
  Z.land (Z.shiftr (byte_val b) 1) 127 = byte_val b / 2.
Proof. destruct b; reflexivity. Qed.

Lemma lor_shiftl_byte (x : Z) (b : byte) :
  0 <= x -> Z.lor (Z.shiftl x 8) (byte_val b) = 256 * x + byte_val b.
Proof.
  intros Hx. pose proof (byte_val_range b) as Hb.
  assert (Z.land (Z.shiftl x 8) (byte_val b) = 0) as Hdisjoint.
  { apply Z.bits_inj'. intros n Hn.
    rewrite Z.land_spec, Z.bits_0.
    destruct (Z.ltb_spec n 8) as [Hlo|Hhi].
    - rewrite Z.shiftl_spec_low by lia. reflexivity.
    - destruct (Z.eq_dec (byte_val b) 0) as [->|Hnz].
      + rewrite Z.bits_0. apply andb_false_r.
      + rewrite (Z.bits_above_log2 (byte_val b) n); [apply andb_false_r|lia|].
        assert (Z.log2 (byte_val b) < 8); [|lia].
        apply Z.log2_lt_pow2; [lia|]. change (2 ^ 8) with 256. lia. }
  rewrite <- Z.lxor_lor by exact Hdisjoint.
  rewrite <- Z.add_nocarry_lxor by exact Hdisjoint.
  rewrite Z.shiftl_mul_pow2 by lia. change (2 ^ 8) with 256. lia.
Qed.

Lemma high_six_bits (b : byte) :
  Z.land (Z.shiftr (byte_val b) 2) 63 = byte_val b / 4.
Proof. destruct b; reflexivity. Qed.

Lemma low_two_bits (b : byte) : Z.land (byte_val b) 3 = byte_val b mod 4.
Proof. destruct b; reflexivity. Qed.

Lemma low_bit (b : byte) : Z.land (byte_val b) 1 = byte_val b mod 2.
Proof. destruct b; reflexivity. Qed.

Lemma nibbles (b : byte) :
  byte_val b = 16 * Z.shiftr (byte_val b) 4 + Z.land (byte_val b) 15
  /\ 0 <= Z.shiftr (byte_val b) 4 < 16 /\ 0 <= Z.land (byte_val b) 15 < 16.
Proof. destruct b; vm_compute; intuition discriminate. Qed.

Lemma digits_of_range (format_byte : byte) : 1 <= digits_of format_byte <= 4.
Proof. destruct format_byte; vm_compute; split; discriminate. Qed.

Lemma for_each_cons {A B} (f : A -> outcome B) (x : A) (l : list A) :
  for_each f (x :: l)
  = let! y := f x in let! ys := for_each f l in Return (y :: ys).
Proof. reflexivity. Qed.

Lemma for_each_raises_first {A B} (f : A -> outcome B) (x : A) (l : list A)
    (e : exn) :
  f x = Raise e -> for_each f (x :: l) = Raise e.
Proof. intros Hx. simpl. rewrite Hx. reflexivity. Qed.

(** *** The dispatch branches on payloads of the expected length *)

Local Opaque truediv int_from_bytes_big byte_val for_each.
Local Opaque Z.land Z.lor Z.shiftl Z.shiftr.

Ltac run_dispatch :=
  unfold dispatch; simpl; rewrite ?truediv_divisor; simpl.

Lemma dispatch_1 (fb b0 b1 : byte) :
  dispatch 1 (divisor_of fb) [b0; b1]
  = Return (Some (RawInt (twos_complement16 b0 b1),
                  Scaled (scaled (twos_complement16 b0 b1) fb))).
Proof. run_dispatch. rewrite int16_signed. reflexivity. Qed.

Lemma dispatch_2 (fb b0 b1 : byte) :
  dispatch 2 (divisor_of fb) [b0; b1]
  = let unsigned_value :=
      Z.lor (Z.shiftl (Z.land (byte_val b0) 3) 8) (byte_val b1) in
    Return (Some (RawSegmentUnsigned (Z.land (Z.shiftr (byte_val b0) 2) 63)
                                     unsigned_value,
                  Scaled (scaled unsigned_value fb))).
Proof. run_dispatch. reflexivity. Qed.

Lemma dispatch_3 (fb b0 b1 : byte) :
  dispatch 3 (divisor_of fb) [b0; b1]
  = let unsigned_value :=
      Z.lor (Z.shiftl (Z.land (byte_val b0) 1) 8) (byte_val b1) in
    if byte_val b0 <? 128 then Raise (UnboundLocalError "signed_value")
    else Return (Some (RawSegmentSigned
                         (Z.land (Z.shiftr (byte_val b0) 1) 127)
                         (- unsigned_value),
                       Scaled (scaled unsigned_value fb))).
Proof.
  run_dispatch. rewrite sign_flag_bit, negb_involutive.
  destruct (byte_val b0 <? 128); reflexivity.
Qed.

Lemma dispatch_4 (fb b0 b1 b2 b3 : byte) :
  dispatch 4 (divisor_of fb) [b0; b1; b2; b3]
  = let unsigned_value :=
      65536 * byte_val b1 + 256 * byte_val b2 + byte_val b3 in
    Return (Some (RawSegmentUnsigned (byte_val b0) unsigned_value,
                  Scaled (scaled unsigned_value fb))).
Proof.
  run_dispatch. change (slice_from [b0; b1; b2; b3] 1) with [b1; b2; b3].
  rewrite int24_unsigned. reflexivity.
Qed.

Lemma dispatch_5 (d : Z) (b0 b1 b2 b3 : byte) :
  dispatch 5 d [b0; b1; b2; b3]
  = Return (Some (RawTimer (byte_val b0) (byte_val b1) (byte_val b2)
                           (byte_val b3),
                  Timedelta (byte_val b1 * 3600 + byte_val b2 * 60
                             + byte_val b3))).
Proof. run_dispatch. reflexivity. Qed.

Lemma dispatch_6 (d : Z) (b0 b1 b2 b3 : byte) :
  dispatch 6 d [b0; b1; b2; b3]
  = let! chars := for_each convert_segment_b_to_char [b0; b1; b2; b3] in
    Return (Some (RawHexList (map format_02X [b0; b1; b2; b3]),
                  Text (fold_right String.append EmptyString chars))).
Proof. run_dispatch. reflexivity. Qed.

Lemma dispatch_7 (fb b0 b1 b2 b3 : byte) :
  dispatch 7 (divisor_of fb) [b0; b1; b2; b3]
  = let unsigned_value :=
      Z.lor (Z.shiftl (Z.land (Z.shiftr (byte_val b2) 1) 127) 8)
            (byte_val b3) in
    Return (Some (RawInt unsigned_value, Scaled (scaled unsigned_value fb))).
Proof. run_dispatch. reflexivity. Qed.

Lemma dispatch_8 (fb b0 b1 : byte) :
  dispatch 8 (divisor_of fb) [b0; b1]
  = let unsigned_value :=
      Z.lor (Z.shiftl (Z.land (byte_val b0) 1) 8) (byte_val b1) in
    Return (Some (RawSegmentUnsigned (Z.land (Z.shiftr (byte_val b0) 1) 127)
                                     unsigned_value,
                  Scaled (scaled unsigned_value fb))).
Proof. run_dispatch. reflexivity. Qed.

Lemma dispatch_10 (fb b0 b1 b2 b3 : byte) :
  dispatch 10 (divisor_of fb) [b0; b1; b2; b3]
  = Return (Some (RawPair (twos_complement16 b0 b1) (twos_complement16 b2 b3),
                  ScaledPair (scaled (twos_complement16 b0 b1) fb)
                             (scaled (twos_complement16 b2 b3) fb))).
Proof.
  run_dispatch.
  change (slice [b0; b1; b2; b3] 0 2) with [b0; b1].
  change (slice_from [b0; b1; b2; b3] 2) with [b2; b3].
  rewrite !int16_signed. reflexivity.
Qed.

(** A payload that is empty or not of the required length, or an
    unsupported code, takes an early [return None]. *)
Lemma dispatch_rejects (code d : Z) (data : list byte) :
  expected_length code <> Some (len data) ->
  dispatch code d data = Return None.
Proof.
  unfold expected_length, dispatch. intros Hlen.
  repeat match goal with
         | |- context [code =? ?k] =>
             destruct (Z.eqb_spec code k) as [->|?]; simpl in Hlen |- *
         end;
    try reflexivity;
    match goal with
    | |- context [len data =? ?k] =>
        destruct (Z.eqb_spec (len data) k) as [Heq|?];
        [rewrite Heq in Hlen; congruence | reflexivity]
    end.
Qed.

Lemma decode_result_rejected (r : channel_record) :
  record_rejected r -> record_result r = None.
Proof.
  unfold record_rejected, record_result, decode_result.
  intros [Hempty|Hlen]; rewrite decode_try_dispatch.
  - rewrite Hempty. reflexivity.
  - rewrite dispatch_rejects by exact Hlen.
    destruct (len (rec_payload r) =? 0); reflexivity.
Qed.

(** *** Results of the format interpreter *)

Lemma decode_of_dispatch (channel_id format_byte : byte) (data : list byte)
    (raw : raw_value) (interpreted : interpreted_value) :
  len data <> 0 ->
  dispatch (format_code format_byte) (divisor_of format_byte) data
    = Return (Some (raw, interpreted)) ->
  decode_format_and_data channel_id format_byte data
    = Return (Some (result_of channel_id format_byte data raw interpreted)).
Proof.
  intros Hlen Hd. rewrite decode_format_and_data_result.
  unfold decode_result. rewrite decode_try_dispatch, Hd.
  destruct (Z.eqb_spec (len data) 0); [contradiction|reflexivity].
Qed.

Lemma same_but_digits_fields (fb1 fb2 : byte) :
  same_but_digits fb1 fb2 ->
  format_code fb1 = format_code fb2 /\ divisor_of fb1 = divisor_of fb2.
Proof.
  unfold same_but_digits, format_code, divisor_of. intros H. split.
  - change 15 with (Z.land 207 15). rewrite !Z.land_assoc, H. reflexivity.
  - assert (forall b : byte,
               Z.shiftr (byte_val b) 6 = Z.shiftr (Z.land (byte_val b) 207) 6)
      as Hshift by (intros b; destruct b; reflexivity).
    rewrite (Hshift fb1), (Hshift fb2), H. reflexivity.
Qed.

(** The digits bits reach neither the divisor nor [interpreted], for any
    format code and any payload. *)
Lemma digits_bits_irrelevant (c1 c2 fb1 fb2 : byte) (data : list byte) :
  same_but_digits fb1 fb2 ->
  divisor_of fb1 = divisor_of fb2 /\
  dv_interpreted <$> decode_result c1 fb1 data
    = dv_interpreted <$> decode_result c2 fb2 data.
Proof.
  intros H. destruct (same_but_digits_fields _ _ H) as [Hcode Hdiv].
  split; [exact Hdiv|].
  unfold decode_result. rewrite !decode_try_dispatch, Hcode, Hdiv.
  destruct (len data =? 0); [reflexivity|].
  destruct (dispatch _ _ _) as [[[raw interp]|]|e]; reflexivity.
Qed.

(** Format 0x03 with the sign flag set decodes, and reports the
    magnitude unsigned. *)
Lemma decode_format_03_sign_set (channel_id fb b0 b1 : byte) :
  format_code fb = 3 -> 128 <= byte_val b0 ->
  let magnitude := Z.lor (Z.shiftl (Z.land (byte_val b0) 1) 8) (byte_val b1) in
  decode_format_and_data channel_id fb [b0; b1]
  = Return (Some (result_of channel_id fb [b0; b1]
                    (RawSegmentSigned (Z.land (Z.shiftr (byte_val b0) 1) 127)
                                      (- magnitude))
                    (Scaled (scaled magnitude fb)))).
Proof.
  intros Hcode Hsign magnitude. apply decode_of_dispatch; [discriminate|].
  rewrite Hcode, dispatch_3.
  destruct (Z.ltb_spec (byte_val b0) 128); [lia|reflexivity].
Qed.

(** C1 (the code departs from it): format 0x03 does not decode every
    2-byte payload.  When the sign flag is clear, that is when the first
    payload byte is below 0x80, reading the unbound local [signed_value]
    raises inside the [try] block and the record comes back as [None]. *)
Theorem decode_format_03_sign_clear (channel_id fb b0 b1 : byte) :
  format_code fb = 3 -> byte_val b0 < 128 ->
  decode_format_and_data_try channel_id fb [b0; b1]
    = Raise (UnboundLocalError "signed_value")
  /\ decode_format_and_data channel_id fb [b0; b1] = Return None.
Proof.
  intros Hcode Hsign.
  assert (decode_format_and_data_try channel_id fb [b0; b1]
          = Raise (UnboundLocalError "signed_value")) as Htry.
  { rewrite decode_try_dispatch, Hcode, dispatch_3.
    destruct (Z.ltb_spec (byte_val b0) 128); [reflexivity|lia]. }
  split; [exact Htry|].
  unfold decode_format_and_data. rewrite Htry. reflexivity.
Qed.

(** C5 (amended): for the format codes 0x01, 0x02, 0x04, 0x07, 0x08 and
    0x0A and every payload of the required length, the record decodes,
    its divisor is the one read from bits 7-6 of the format byte, and
    [interpreted] is the number (for 0x0A the two numbers) recorded in
    [raw] over that divisor; a second format byte that differs only in the
    digits bits gives the same divisor and the same [interpreted]. *)
Theorem interpreted_is_raw_over_divisor
    (channel_id fb fb' : byte) (data : list byte) :
  In (format_code fb) [1; 2; 4; 7; 8; 10] ->
  expected_length (format_code fb) = Some (len data) ->
  same_but_digits fb fb' ->
  exists r r',
    decode_format_and_data channel_id fb data = Return (Some r)
    /\ decode_format_and_data channel_id fb' data = Return (Some r')
    /\ dv_divisor r = divisor_of fb
    /\ scaled_from_raw fb (dv_raw r) (dv_interpreted r)
    /\ dv_divisor r' = dv_divisor r
    /\ dv_interpreted r' = dv_interpreted r.
Proof.
  intros Hin Hlen Hsame.
  destruct (same_but_digits_fields _ _ Hsame) as [Hcode Hdiv].
  assert (exists raw interp,
             dispatch (format_code fb) (divisor_of fb) data
               = Return (Some (raw, interp))
             /\ scaled_from_raw fb raw interp /\ len data <> 0)
    as (raw & interp & Hd & Hscaled & Hne).
  { simpl in Hin.
    destruct Hin as [H|[H|[H|[H|[H|[H|[]]]]]]]; rewrite <- H in *;
      simpl in Hlen; injection Hlen as Hlen;
      (destruct data as [|b0 [|b1 [|b2 [|b3 [|b4 data]]]]];
       try discriminate Hlen;
       try (exfalso; unfold len in Hlen; simpl in Hlen; lia)).
    - rewrite dispatch_1. eexists _, _.
      split; [reflexivity|]. split; [|discriminate]. simpl. eauto.
    - rewrite dispatch_2. eexists _, _.
      split; [reflexivity|]. split; [|discriminate]. simpl. eauto.
    - rewrite dispatch_4. eexists _, _.
      split; [reflexivity|]. split; [|discriminate]. simpl. eauto.
    - rewrite dispatch_7. eexists _, _.
      split; [reflexivity|]. split; [|discriminate]. simpl. eauto.
    - rewrite dispatch_8. eexists _, _.
      split; [reflexivity|]. split; [|discriminate]. simpl. eauto.
    - rewrite dispatch_10. eexists _, _.
      split; [reflexivity|]. split; [|discriminate]. simpl. eauto 6. }
  exists (result_of channel_id fb data raw interp),
         (result_of channel_id fb' data raw interp).
  split; [apply decode_of_dispatch; assumption|].
  split; [apply decode_of_dispatch; [assumption|];
          rewrite <- Hcode, <- Hdiv; exact Hd|].
  simpl. auto.
Qed.

(** Formats 0x05 and 0x06 decode to a duration and to a text: no divisor
    enters [interpreted]. *)
Lemma decode_format_05 (channel_id fb b0 b1 b2 b3 : byte) :
  format_code fb = 5 ->
  decode_format_and_data channel_id fb [b0; b1; b2; b3]
  = Return (Some (result_of channel_id fb [b0; b1; b2; b3]
                    (RawTimer (byte_val b0) (byte_val b1) (byte_val b2)
                              (byte_val b3))
                    (Timedelta (byte_val b1 * 3600 + byte_val b2 * 60
                                + byte_val b3)))).
Proof.
  intros Hcode. apply decode_of_dispatch; [discriminate|].
  rewrite Hcode. apply dispatch_5.
Qed.

(** C7 (amended): for format 0x07 and every 4-byte payload, the raw value
    is the 15-bit integer whose high 7 bits are bits 7-1 of byte index 2
    (the lowest bit of that byte is dropped) and whose low 8 bits are byte
    index 3, that is [((payload[2] >> 1) & 0x7F) << 8 | payload[3]], and
    [interpreted] is that value over the divisor. *)
Theorem decode_format_07 (channel_id fb b0 b1 b2 b3 : byte) :
  format_code fb = 7 ->
  let value := 256 * (byte_val b2 / 2) + byte_val b3 in
  decode_format_and_data channel_id fb [b0; b1; b2; b3]
    = Return (Some (result_of channel_id fb [b0; b1; b2; b3]
                      (RawInt value) (Scaled (scaled value fb))))
  /\ value = Z.lor (Z.shiftl (Z.land (Z.shiftr (byte_val b2) 1) 127) 8)
                   (byte_val b3)
  /\ 0 <= value < 32768.
Proof.
  intros Hcode value.
  pose proof (byte_val_range b2) as H2. pose proof (byte_val_range b3) as H3.
  assert (0 <= byte_val b2 / 2 < 128) as Hhi.
  { split; [apply Z.div_pos; lia|apply Z.div_lt_upper_bound; lia]. }
  assert (value = Z.lor (Z.shiftl (Z.land (Z.shiftr (byte_val b2) 1) 127) 8)
                        (byte_val b3)) as Hvalue.
  { rewrite high_seven_bits, lor_shiftl_byte by lia. reflexivity. }
  split; [|split; [exact Hvalue|unfold value; lia]].
  apply decode_of_dispatch; [discriminate|].
  rewrite Hcode, dispatch_7, Hvalue. reflexivity.
Qed.

(** C8: for format 0x0A and every 4-byte payload, [interpreted] is the
    pair of the two's-complement big-endian 16-bit integers of bytes 0-1
    and of bytes 2-3, each over the same divisor, and [raw] keeps both
    integers. *)
Theorem decode_format_0A (channel_id fb b0 b1 b2 b3 : byte) :
  format_code fb = 10 ->
  decode_format_and_data channel_id fb [b0; b1; b2; b3]
  = Return (Some (result_of channel_id fb [b0; b1; b2; b3]
                    (RawPair (twos_complement16 b0 b1)
                             (twos_complement16 b2 b3))
                    (ScaledPair (scaled (twos_complement16 b0 b1) fb)
                                (scaled (twos_complement16 b2 b3) fb)))).
Proof.
  intros Hcode. apply decode_of_dispatch; [discriminate|].
  rewrite Hcode. apply dispatch_10.
Qed.

(** An exception of the segment utility, raised while format 0x06 is
    decoded, is caught like any other. *)
Lemma decode_format_06_utility_raises
    (channel_id fb b0 b1 b2 b3 : byte) (e : exn) :
  format_code fb = 6 ->
  convert_segment_b_to_char b0 = Raise e ->
  decode_format_and_data_try channel_id fb [b0; b1; b2; b3] = Raise e
  /\ decode_format_and_data channel_id fb [b0; b1; b2; b3] = Return None.
Proof.
  intros Hcode Hraise.
  assert (decode_format_and_data_try channel_id fb [b0; b1; b2; b3]
          = Raise e) as Htry.
  { rewrite decode_try_dispatch, Hcode, dispatch_6.
    rewrite (for_each_raises_first _ _ _ e Hraise). reflexivity. }
  split; [exact Htry|].
  unfold decode_format_and_data. rewrite Htry. reflexivity.
Qed.

(** C9: [decode_format_and_data] always returns to its caller, with a
    result dictionary or [None]; an exception raised anywhere in its [try]
    block, a dispatch branch included, becomes the [None] outcome. *)
Theorem decode_format_and_data_never_raises
    (channel_id format_byte : byte) (data_bytes : list byte) :
  decode_format_and_data channel_id format_byte data_bytes
  = Return (match decode_format_and_data_try channel_id format_byte data_bytes
            with
            | Return result => result
            | Raise _ => None
            end).
Proof.
  unfold decode_format_and_data, try_except.
  destruct (decode_format_and_data_try channel_id format_byte data_bytes);
    reflexivity.
Qed.

(** *** The header reads *)

Lemma header_fields_long (a b c d hc : byte) (rest : list byte) :
  header_fields (a :: b :: c :: d :: hc :: rest)
  = Return (a, b, c, d, hc, removelast rest, List.last rest hc).
Proof.
  unfold header_fields.
  set (frame := a :: b :: c :: d :: hc :: rest).
  replace (getitem frame 0) with (Return a)
    by (symmetry; exact (getitem_app [] a _)).
  replace (getitem frame 1) with (Return b)
    by (symmetry; exact (getitem_app [a] b _)).
  replace (getitem frame 2) with (Return c)
    by (symmetry; exact (getitem_app [a; b] c _)).
  replace (getitem frame 3) with (Return d)
    by (symmetry; exact (getitem_app [a; b; c] d _)).
  replace (getitem frame 4) with (Return hc)
    by (symmetry; exact (getitem_app [a; b; c; d] hc _)).
  simpl bind. subst frame.
  induction rest as [|bc body _] using rev_ind.
  - replace (getitem [a; b; c; d; hc] (-1)) with (Return hc)
      by (symmetry; exact (getitem_last [a; b; c; d] hc)).
    reflexivity.
  - replace (getitem (a :: b :: c :: d :: hc :: body ++ [bc]) (-1))
      with (Return bc)
      by (symmetry; exact (getitem_last ([a; b; c; d; hc] ++ body) bc)).
    replace (slice (a :: b :: c :: d :: hc :: body ++ [bc]) 5 (-1))
      with body
      by (symmetry; exact (slice_body [a; b; c; d; hc] body bc eq_refl)).
    rewrite removelast_last, last_last. reflexivity.
Qed.

Lemma header_slice (a b c d hc : byte) (rest : list byte) :
  slice (a :: b :: c :: d :: hc :: rest) 0 4 = [a; b; c; d].
Proof. exact (slice_app [] [a; b; c; d] (hc :: rest)). Qed.

(** [decode_frame] on a frame of five bytes or more: no header read
    fails, and the two checksum comparisons decide what follows. *)
Lemma decode_frame_long (fuel : nat) (a b c d hc : byte) (rest : list byte) :
  decode_frame fuel (a :: b :: c :: d :: hc :: rest) =
  if negb (calculate_checksum [a; b; c; d] =? byte_val hc)
  then Some (FrameError "Header checksum mismatch")
  else if negb (calculate_checksum (removelast rest)
                =? byte_val (List.last rest hc))
  then Some (FrameError "Body checksum mismatch")
  else (fun st => decoded_header a b d (values st))
         <$> body_loop fuel (removelast rest) {| index := 0; values := ∅ |}.
Proof.
  unfold decode_frame. rewrite header_fields_long, header_slice.
  destruct (negb _); [reflexivity|].
  destruct (negb _); [reflexivity|].
  destruct (body_loop _ _ _); reflexivity.
Qed.

(** A frame of fewer than five bytes fails on a header read, and the
    outer handler returns the message of the exception. *)
Lemma decode_frame_short (fuel : nat) (frame : list byte) :
  (length frame < 5)%nat ->
  decode_frame fuel frame = Some (FrameError "index out of range").
Proof.
  intros Hshort.
  destruct frame as [|a [|b [|c [|d [|hc rest]]]]];
    try reflexivity.
  simpl in Hshort. lia.
Qed.

(** *** One turn of the body loop *)

(** On a record of the expected size the turn stores the record's result
    under its channel name and moves the cursor past the record. *)
Lemma record_step_sized (pre post : list byte) (r : channel_record)
    (vals : gmap string (option DecodedValue)) :
  record_sized r ->
  record_step (pre ++ encode_record r ++ post)
              {| index := len pre; values := vals |}
  = {| index := len (pre ++ encode_record r);
       values := store_record vals r |}.
Proof.
  intros Hsized. destruct r as [cid fb payload].
  unfold record_sized, data_length_of, format_code in Hsized.
  simpl in Hsized.
  unfold record_step, record_try, encode_record, store_record, record_name,
    record_result.
  cbn [rec_channel_id rec_format_byte rec_payload].
  unfold st_bind at 1. unfold get_index at 1. cbn [index].
  unfold st_bind at 1. unfold st_lift at 1.
  replace (getitem (pre ++ (cid :: fb :: payload) ++ post) (len pre))
    with (Return cid) by (symmetry; exact (getitem_app pre cid _)).
  unfold st_bind at 1. unfold st_lift at 1.
  replace (getitem (pre ++ (cid :: fb :: payload) ++ post) (len pre + 1))
    with (Return fb).
  2:{ symmetry. rewrite <- (getitem_app (pre ++ [cid]) fb (payload ++ post)).
      rewrite len_app. change (len [cid]) with 1.
      rewrite <- app_assoc. reflexivity. }
  unfold st_bind at 1. unfold set_index at 1. cbn [values].
  unfold st_bind at 1. unfold get_index at 1. cbn [index].
  rewrite <- Hsized.
  pose proof (len_nonneg pre). pose proof (len_nonneg payload).
  pose proof (len_nonneg post).
  destruct (Z.ltb_spec (len (pre ++ (cid :: fb :: payload) ++ post))
                       (len pre + 2 + len payload)) as [Hlt|_].
  { rewrite !len_app, !len_cons in Hlt. lia. }
  unfold st_bind at 1. unfold set_index at 1. cbn [values].
  unfold st_bind at 1. unfold st_lift at 1.
  replace (slice (pre ++ (cid :: fb :: payload) ++ post) (len pre + 2)
                 (len pre + 2 + len payload)) with payload.
  2:{ pose proof (slice_app (pre ++ [cid; fb]) payload post) as Hslice.
      rewrite len_app in Hslice. change (len [cid; fb]) with 2 in Hslice.
      rewrite <- app_assoc in Hslice. symmetry. exact Hslice. }
  rewrite decode_format_and_data_result.
  unfold store_value. cbn [snd index values].
  f_equal. rewrite len_app, !len_cons. lia.
Qed.

(** A lone byte at the cursor: reading the format byte raises before the
    cursor has moved, and [except] leaves the state as it was. *)
Lemma record_step_lone_byte (pre : list byte) (x : byte)
    (vals : gmap string (option DecodedValue)) :
  record_step (pre ++ [x]) {| index := len pre; values := vals |}
  = {| index := len pre; values := vals |}.
Proof.
  unfold record_step, record_try.
  unfold st_bind at 1. unfold get_index at 1. cbn [index].
  unfold st_bind at 1. unfold st_lift at 1.
  rewrite getitem_app.
  unfold st_bind at 1. unfold st_lift at 1.
  rewrite getitem_end; [reflexivity|].
  rewrite len_app. change (len [x]) with 1. lia.
Qed.

(** *** The body loop *)

Lemma body_loop_more_fuel (fuel extra : nat) (body : list byte)
    (st st' : loop_state) :
  body_loop fuel body st = Some st' ->
  body_loop (fuel + extra) body st = Some st'.
Proof.
  revert st. induction fuel as [|fuel IH]; intros st Hrun; [discriminate|].
  simpl in *. destruct (index st <? len body); [|exact Hrun].
  apply IH. exact Hrun.
Qed.

(** Over records of the expected size the loop takes one turn per
    record. *)
Lemma body_loop_records (recs : list channel_record) :
  forall (fuel : nat) (pre post : list byte)
         (vals : gmap string (option DecodedValue)),
    Forall record_sized recs ->
    body_loop (length recs + fuel) (pre ++ encode_records recs ++ post)
              {| index := len pre; values := vals |}
    = body_loop fuel (pre ++ encode_records recs ++ post)
                {| index := len (pre ++ encode_records recs);
                   values := foldl store_record vals recs |}.
Proof.
  induction recs as [|r recs IH]; intros fuel pre post vals Hsized.
  - simpl. rewrite app_nil_r. reflexivity.
  - inversion Hsized as [|? ? Hr Hrecs]; subst.
    change (encode_records (r :: recs))
      with (encode_record r ++ encode_records recs).
    rewrite <- (app_assoc (encode_record r)).
    cbn [length Nat.add body_loop index].
    destruct (Z.ltb_spec (len pre)
                (len (pre ++ encode_record r ++ encode_records recs ++ post)))
      as [_|Hge].
    2:{ rewrite len_app in Hge. unfold encode_record in Hge.
        simpl app in Hge. rewrite !len_cons in Hge.
        pose proof (len_nonneg (rec_payload r ++ encode_records recs ++ post)).
        lia. }
    rewrite record_step_sized by exact Hr.
    rewrite (app_assoc pre (encode_record r)).
    rewrite IH by exact Hrecs.
    rewrite <- !app_assoc. reflexivity.
Qed.

(** A body made of records of the expected size is segmented in as many
    turns as it has records. *)
Lemma body_loop_terminates (recs : list channel_record) (fuel : nat) :
  Forall record_sized recs ->
  (length recs < fuel)%nat ->
  body_loop fuel (encode_records recs) {| index := 0; values := ∅ |}
  = Some {| index := len (encode_records recs);
            values := foldl store_record ∅ recs |}.
Proof.
  intros Hsized Hfuel.
  replace fuel with (length recs + S (fuel - S (length recs)))%nat by lia.
  pose proof (body_loop_records recs (S (fuel - S (length recs))) [] [] ∅
                Hsized) as Hrun.
  simpl app in Hrun. rewrite app_nil_r in Hrun.
  change (len []) with 0 in Hrun. rewrite Hrun.
  cbn [body_loop index]. rewrite Z.ltb_irrefl. reflexivity.
Qed.

(** When a single byte follows the records, the loop never leaves it. *)
Lemma body_loop_trailing_byte (recs : list channel_record) (x : byte)
    (fuel : nat) :
  Forall record_sized recs ->
  body_loop fuel (encode_records recs ++ [x]) {| index := 0; values := ∅ |}
  = None.
Proof.
  intros Hsized.
  assert (forall n vals,
             body_loop n (encode_records recs ++ [x])
               {| index := len (encode_records recs); values := vals |}
             = None) as Hstuck.
  { induction n as [|n IH]; intros vals; [reflexivity|].
    cbn [body_loop index]. rewrite len_app. change (len [x]) with 1.
    destruct (Z.ltb_spec (len (encode_records recs))
                         (len (encode_records recs) + 1)) as [_|?]; [|lia].
    rewrite record_step_lone_byte. apply IH. }
  destruct (body_loop fuel _ _) as [st|] eqn:Hrun; [|reflexivity].
  apply (body_loop_more_fuel fuel (length recs)) in Hrun.
  rewrite Nat.add_comm in Hrun.
  pose proof (body_loop_records recs fuel [] [x] ∅ Hsized) as Hrecs.
  simpl app in Hrecs. change (len []) with 0 in Hrecs.
  rewrite Hrecs, Hstuck in Hrun. discriminate.
Qed.

(** *** The values mapping after the loop *)

Lemma fold_store_other (recs : list channel_record) :
  forall (m : gmap string (option DecodedValue)) (name : string),
    Forall (fun r => record_name r <> name) recs ->
    foldl store_record m recs !! name = m !! name.
Proof.
  induction recs as [|r recs IH]; intros m name Hother; [reflexivity|].
  inversion Hother as [|? ? Hr Hrecs]; subst. simpl.
  rewrite IH by exact Hrecs. unfold store_record.
  apply lookup_insert_ne. exact Hr.
Qed.

(** The entry of a name is the result of the last record with that
    name. *)
Lemma fold_store_last (pre post : list channel_record) (r : channel_record)
    (m : gmap string (option DecodedValue)) :
  Forall (fun r' => record_name r' <> record_name r) post ->
  foldl store_record m (pre ++ r :: post) !! record_name r
  = Some (record_result r).
Proof.
  intros Hpost. rewrite foldl_app. simpl.
  rewrite fold_store_other by exact Hpost.
  unfold store_record. apply lookup_insert_eq.
Qed.

Lemma fold_store_keeps (recs : list channel_record) :
  forall (m : gmap string (option DecodedValue)) (name : string),
    is_Some (m !! name) -> is_Some (foldl store_record m recs !! name).
Proof.
  induction recs as [|r recs IH]; intros m name Hin; [exact Hin|].
  simpl. apply IH. unfold store_record.
  destruct (decide (record_name r = name)) as [->|Hne].
  - rewrite lookup_insert_eq. eauto.
  - rewrite lookup_insert_ne by exact Hne. exact Hin.
Qed.

Lemma fold_store_present (recs : list channel_record) (r : channel_record)
    (m : gmap string (option DecodedValue)) :
  r ∈ recs -> is_Some (foldl store_record m recs !! record_name r).
Proof.
  intros Hin. apply list_elem_of_split in Hin as (pre & post & ->).
  rewrite foldl_app. simpl. apply fold_store_keeps.
  unfold store_record. rewrite lookup_insert_eq. eauto.
Qed.

(** [decode_frame] on a frame whose checksums match and whose body is a
    sequence of records of the expected size. *)
Lemma decode_frame_records (fuel : nat) (a b c d hc bc : byte)
    (recs : list channel_record) :
  calculate_checksum [a; b; c; d] = byte_val hc ->
  calculate_checksum (encode_records recs) = byte_val bc ->
  Forall record_sized recs ->
  (length recs < fuel)%nat ->
  decode_frame fuel (frame_of a b c d hc recs bc)
  = Some (decoded_header a b d (foldl store_record ∅ recs)).
Proof.
  intros Hh Hb Hsized Hfuel. unfold frame_of. simpl app.
  rewrite decode_frame_long, removelast_last, last_last, Hh, Hb.
  rewrite !Z.eqb_refl. cbn [negb].
  rewrite body_loop_terminates by assumption. reflexivity.
Qed.

(** *** The ASCII path *)

Lemma decode_ascii_frame_long (a b c d hc cid fb bc : byte)
    (payload : list byte) :
  decode_ascii_frame ([a; b; c; d; hc] ++ cid :: fb :: payload ++ [bc])
  = match decode_ascii payload with
    | Raise _ => FrameError "ASCII decode failed"
    | Return text =>
        DecodedFrame
          (lookup_name ADDRESS_LOOKUP a) (lookup_name ADDRESS_LOOKUP b)
          (lookup_name COMMAND_LOOKUP d)
          {[ lookup_name CHANNEL_LOOKUP cid :=
               {| av_channel_id := "0x" +:+ format_02X cid;
                  av_format_byte := "0x" +:+ format_02X fb;
                  av_data_bytes := hex payload;
                  av_raw := strip text;
                  av_interpreted := strip text |} ]}
    end.
Proof.
  unfold decode_ascii_frame, decode_ascii_frame_try. simpl app.
  rewrite header_fields_long. cbn [bind].
  change (cid :: fb :: payload ++ [bc]) with ((cid :: fb :: payload) ++ [bc]).
  rewrite removelast_last.
  replace (getitem (cid :: fb :: payload) 0) with (Return cid)
    by (symmetry; exact (getitem_app [] cid _)).
  replace (getitem (cid :: fb :: payload) 1) with (Return fb)
    by (symmetry; exact (getitem_app [cid] fb _)).
  cbn [bind].
  replace (slice_from (cid :: fb :: payload) 2) with payload.
  2:{ pose proof (slice_app [cid; fb] payload []) as Hslice.
      rewrite app_nil_r in Hslice. change (len [cid; fb]) with 2 in Hslice.
      unfold slice_from. rewrite !len_cons.
      replace (1 + (1 + len payload)) with (2 + len payload) by lia.
      symmetry. exact Hslice. }
  destruct (decode_ascii payload); reflexivity.
Qed.

(** *** Properties of the frame decoders *)

(** C6: on every frame that has a header checksum byte, [decode_frame]
    returns the header-checksum error when the checksum of the first four
    bytes differs from [frame[4]]; otherwise the body-checksum error when
    the checksum of the body differs from the final byte; otherwise it
    goes on to the body loop and returns the decoded header with the
    values the loop collects.  The error results carry no values. *)
Theorem decode_frame_checksum_gate (fuel : nat) (a b c d hc : byte)
    (rest : list byte) :
  decode_frame fuel (a :: b :: c :: d :: hc :: rest) =
  if decide (calculate_checksum [a; b; c; d] <> byte_val hc)
  then Some (FrameError "Header checksum mismatch")
  else if decide (calculate_checksum (removelast rest)
                  <> byte_val (List.last rest hc))
  then Some (FrameError "Body checksum mismatch")
  else (fun st => decoded_header a b d (values st))
         <$> body_loop fuel (removelast rest) {| index := 0; values := ∅ |}.
Proof.
  rewrite decode_frame_long.
  destruct (Z.eqb_spec (calculate_checksum [a; b; c; d]) (byte_val hc));
    destruct (decide (calculate_checksum [a; b; c; d] <> byte_val hc));
    try contradiction; cbn [negb]; [|reflexivity].
  destruct (Z.eqb_spec (calculate_checksum (removelast rest))
                       (byte_val (List.last rest hc)));
    destruct (decide (calculate_checksum (removelast rest)
                      <> byte_val (List.last rest hc)));
    try contradiction; reflexivity.
Qed.

(** C4 (the code departs from it): [decode_ascii_frame] compares no
    checksum.  On a frame whose header or body checksum does not match,
    [decode_frame] returns a checksum error, while [decode_ascii_frame]
    returns the decoded header with the channel's text value. *)
Theorem decode_ascii_frame_skips_checksums (fuel : nat)
    (a b c d hc cid fb bc : byte) (payload : list byte) (text : string) :
  calculate_checksum [a; b; c; d] <> byte_val hc \/
  calculate_checksum (cid :: fb :: payload) <> byte_val bc ->
  decode_ascii payload = Return text ->
  let frame := [a; b; c; d; hc] ++ cid :: fb :: payload ++ [bc] in
  (decode_frame fuel frame = Some (FrameError "Header checksum mismatch") \/
   decode_frame fuel frame = Some (FrameError "Body checksum mismatch"))
  /\ decode_ascii_frame frame
     = DecodedFrame
         (lookup_name ADDRESS_LOOKUP a) (lookup_name ADDRESS_LOOKUP b)
         (lookup_name COMMAND_LOOKUP d)
         {[ lookup_name CHANNEL_LOOKUP cid :=
              {| av_channel_id := "0x" +:+ format_02X cid;
                 av_format_byte := "0x" +:+ format_02X fb;
                 av_data_bytes := hex payload;
                 av_raw := strip text;
                 av_interpreted := strip text |} ]}.
Proof.
  intros Hbad Htext frame. split.
  - unfold frame. simpl app. rewrite decode_frame_long.
    change (cid :: fb :: payload ++ [bc])
      with ((cid :: fb :: payload) ++ [bc]).
    rewrite removelast_last, last_last.
    destruct (Z.eqb_spec (calculate_checksum [a; b; c; d]) (byte_val hc))
      as [Hh|Hh]; cbn [negb]; [|left; reflexivity].
    destruct (Z.eqb_spec (calculate_checksum (cid :: fb :: payload))
                         (byte_val bc)) as [Hb|Hb]; cbn [negb];
      [|right; reflexivity].
    destruct Hbad; contradiction.
  - unfold frame. rewrite decode_ascii_frame_long, Htext. reflexivity.
Qed.

(** C2 (amended): when the checksums match and the body is a sequence of
    records of the size the segmenter expects, one of which the format
    interpreter rejects (empty payload, length other than its format code
    requires, unsupported code), [decode_frame] returns a decoded frame;
    the rejected record's channel name is a key of the values mapping,
    bound to [None] unless a later record has the same name; every
    record's channel name is a key, and the last record of each name has
    its result stored there. *)
Theorem decode_frame_rejected_record_stored (a b c d hc bc : byte)
    (pre post : list channel_record) (r : channel_record) :
  let recs := pre ++ r :: post in
  calculate_checksum [a; b; c; d] = byte_val hc ->
  calculate_checksum (encode_records recs) = byte_val bc ->
  Forall record_sized recs ->
  record_rejected r ->
  Forall (fun r' => record_name r' <> record_name r) post ->
  exists vals,
    decode_frame (S (length recs)) (frame_of a b c d hc recs bc)
      = Some (decoded_header a b d vals)
    /\ vals !! record_name r = Some None
    /\ (forall r', r' ∈ recs -> is_Some (vals !! record_name r'))
    /\ (forall pre' r' post',
           recs = pre' ++ r' :: post' ->
           Forall (fun r'' => record_name r'' <> record_name r') post' ->
           vals !! record_name r' = Some (record_result r')).
Proof.
  intros recs Hh Hb Hsized Hrej Hpost.
  exists (foldl store_record ∅ recs).
  split; [apply decode_frame_records; auto with lia|].
  split; [unfold recs; rewrite fold_store_last by exact Hpost;
          rewrite decode_result_rejected by exact Hrej; reflexivity|].
  split; [intros r' Hin; apply fold_store_present; exact Hin|].
  intros pre' r' post' -> Hpost'. apply fold_store_last. exact Hpost'.
Qed.

(** C3 (the code departs from it): the body loop does not always make
    progress.  When the checksums match and the body is a sequence of
    records of the expected size followed by one more byte, the read of
    the format byte raises before the cursor is advanced, the handler
    only logs, and the loop repeats the same turn: no amount of fuel lets
    [decode_frame] return. *)
Theorem decode_frame_trailing_byte_diverges (a b c d hc bc x : byte)
    (recs : list channel_record) :
  calculate_checksum [a; b; c; d] = byte_val hc ->
  calculate_checksum (encode_records recs ++ [x]) = byte_val bc ->
  Forall record_sized recs ->
  forall fuel : nat,
    decode_frame fuel
      ([a; b; c; d; hc] ++ (encode_records recs ++ [x]) ++ [bc]) = None.
Proof.
  intros Hh Hb Hsized fuel. simpl app.
  rewrite decode_frame_long, removelast_last, last_last, Hh, Hb.
  rewrite !Z.eqb_refl. cbn [negb].
  rewrite body_loop_trailing_byte by exact Hsized. reflexivity.
Qed.

(** C10: when two records of a well-formed body have the same channel
    name, the values mapping binds that name to the result of the later
    one (the last record of that name); the earlier result is
    overwritten. *)
Theorem decode_frame_later_record_wins (a b c d hc bc : byte)
    (pre mid post : list channel_record) (r1 r2 : channel_record) :
  let recs := pre ++ r1 :: mid ++ r2 :: post in
  calculate_checksum [a; b; c; d] = byte_val hc ->
  calculate_checksum (encode_records recs) = byte_val bc ->
  Forall record_sized recs ->
  record_name r1 = record_name r2 ->
  Forall (fun r' => record_name r' <> record_name r2) post ->
  exists vals,
    decode_frame (S (length recs)) (frame_of a b c d hc recs bc)
      = Some (decoded_header a b d vals)
    /\ vals !! record_name r1 = Some (record_result r2).
Proof.
  intros recs Hh Hb Hsized Hname Hpost.
  exists (foldl store_record ∅ recs).
  split; [apply decode_frame_records; auto with lia|].
  rewrite Hname. unfold recs.
  change (pre ++ r1 :: mid ++ r2 :: post)
    with (pre ++ (r1 :: mid) ++ r2 :: post).
  rewrite app_assoc. apply fold_store_last. exact Hpost.
Qed.

(** *** More on the format interpreter *)

Lemma decode_some_inv (channel_id fb : byte) (data : list byte)
    (r : DecodedValue) :
  decode_format_and_data channel_id fb data = Return (Some r) ->
  exists raw interpreted,
    r = result_of channel_id fb data raw interpreted
    /\ dispatch (format_code fb) (divisor_of fb) data
       = Return (Some (raw, interpreted))
    /\ len data <> 0.
Proof.
  rewrite decode_format_and_data_result. unfold decode_result.
  rewrite decode_try_dispatch.
  destruct (Z.eqb_spec (len data) 0) as [|Hne]; [discriminate|].
  destruct (dispatch _ _ _) as [[[raw interp]|]|e]; simpl; try discriminate.
  intros [= <-]. eauto.
Qed.

Lemma hex_length (data : list byte) :
  String.length (hex data) = (2 * length data)%nat.
Proof.
  induction data as [|b data IH]; [reflexivity|].
  change (String.length (hex (b :: data)))
    with (S (S (String.length (hex data)))).
  rewrite IH. simpl. lia.
Qed.

(** Every dictionary that [decode_format_and_data] returns carries a
    divisor among 1, 10, 100, 1000, a digits hint between 1 and 4, the
    format code of its format byte, which is a supported code whose
    required length the payload has, and the payload in hexadecimal, two
    characters a byte. *)
Theorem decoded_value_invariant (channel_id fb : byte) (data : list byte)
    (r : DecodedValue) :
  decode_format_and_data channel_id fb data = Return (Some r) ->
  In (dv_divisor r) [1; 10; 100; 1000]
  /\ 1 <= dv_digits r <= 4
  /\ dv_format_bits r = format_code fb
  /\ expected_length (dv_format_bits r) = Some (len data)
  /\ dv_channel_id r = "0x" +:+ format_02X channel_id
  /\ dv_format_byte r = "0x" +:+ format_02X fb
  /\ dv_data_bytes r = hex data
  /\ String.length (dv_data_bytes r) = (2 * length data)%nat.
Proof.
  intros Hdec. apply decode_some_inv in Hdec as (raw & interp & -> & Hd & Hne).
  simpl. split.
  { destruct (divisor_of_cases fb) as [H|[H|[H|H]]]; rewrite H; simpl; auto. }
  split; [apply digits_of_range|]. split; [reflexivity|].
  split.
  { destruct (decide (expected_length (format_code fb) = Some (len data)))
      as [Hlen|Hlen]; [exact Hlen|].
    rewrite dispatch_rejects in Hd by exact Hlen. discriminate. }
  repeat split; try reflexivity. apply hex_length.
Qed.

(** [decode_format_and_data] returns a dictionary exactly when the payload
    has the length its format code requires and, for code 0x03, the sign
    flag (top bit of the first byte) is set and, for code 0x06, the segment
    utility returns for every payload byte. *)
Theorem decode_succeeds_iff (channel_id fb : byte) (data : list byte) :
  (exists r, decode_format_and_data channel_id fb data = Return (Some r))
  <->
  expected_length (format_code fb) = Some (len data)
  /\ (format_code fb = 3 ->
      exists b0, head data = Some b0 /\ 128 <= byte_val b0)
  /\ (format_code fb = 6 ->
      exists chars, for_each convert_segment_b_to_char data = Return chars).
Proof.
  destruct (decide (expected_length (format_code fb) = Some (len data)))
    as [Hlen|Hlen].
  2:{ split; [|intros [? _]; contradiction].
      intros [r Hr]. apply decode_some_inv in Hr as (? & ? & _ & Hd & _).
      rewrite dispatch_rejects in Hd by exact Hlen. discriminate. }
  assert (len data <> 0) as Hne.
  { intros H0. rewrite H0 in Hlen. unfold expected_length in Hlen.
    repeat destruct (_ || _) in Hlen; discriminate. }
  rewrite decode_format_and_data_result. unfold decode_result.
  rewrite decode_try_dispatch.
  destruct (Z.eqb_spec (len data) 0) as [|_]; [contradiction|].
  pose proof Hlen as Hshape. unfold expected_length in Hshape.
  repeat match type of Hshape with
         | context [format_code fb =? ?k] =>
             destruct (Z.eqb_spec (format_code fb) k) as [Hc|?];
             simpl in Hshape
         end;
    try discriminate Hshape; injection Hshape as Hshape;
    (destruct data as [|b0 [|b1 [|b2 [|b3 [|b4 data]]]]];
     try discriminate Hshape;
     try (exfalso; unfold len in Hshape; simpl in Hshape; lia));
    rewrite Hc in *.
  - rewrite dispatch_1. simpl. split; [intros _|eauto].
    split; [reflexivity|]. split; discriminate.
  - rewrite dispatch_2. simpl. split; [intros _|eauto].
    split; [reflexivity|]. split; discriminate.
  - rewrite dispatch_3. simpl.
    destruct (Z.ltb_spec (byte_val b0) 128) as [Hlt|Hge]; simpl.
    + split; [intros [r Hr]; discriminate|].
      intros (_ & Hsign & _). destruct (Hsign eq_refl) as (b & [= <-] & Hb). lia.
    + split; [intros _|eauto].
      split; [reflexivity|]. split; [eauto|discriminate].
  - rewrite dispatch_8. simpl. split; [intros _|eauto].
    split; [reflexivity|]. split; discriminate.
  - rewrite dispatch_4. simpl. split; [intros _|eauto].
    split; [reflexivity|]. split; discriminate.
  - rewrite dispatch_5. simpl. split; [intros _|eauto].
    split; [reflexivity|]. split; discriminate.
  - rewrite dispatch_6.
    destruct (for_each convert_segment_b_to_char [b0; b1; b2; b3])
      as [chars|e]; simpl.
    + split; [intros _|eauto].
      split; [reflexivity|]. split; [discriminate|eauto].
    + split; [intros [r Hr]; discriminate|].
      intros (_ & _ & Hconv). destruct (Hconv eq_refl) as [chars Hchars].
      discriminate.
  - rewrite dispatch_7. simpl. split; [intros _|eauto].
    split; [reflexivity|]. split; discriminate.
  - rewrite dispatch_10. simpl. split; [intros _|eauto].
    split; [reflexivity|]. split; discriminate.
Qed.

(** Format 0x01: the raw value is the 16-bit two's-complement reading of
    the payload word; it lies in [-32768, 32767], is negative exactly when
    the top bit of the first byte is set, and is congruent to the word
    modulo 65536. *)
Theorem decode_format_01_range (channel_id fb b0 b1 : byte) :
  format_code fb = 1 ->
  exists raw,
    decode_format_and_data channel_id fb [b0; b1]
      = Return (Some (result_of channel_id fb [b0; b1]
                        (RawInt raw) (Scaled (scaled raw fb))))
    /\ -32768 <= raw <= 32767
    /\ (raw < 0 <-> 128 <= byte_val b0)
    /\ raw mod 65536 = 256 * byte_val b0 + byte_val b1.
Proof.
  intros Hcode. exists (twos_complement16 b0 b1).
  split; [apply decode_of_dispatch; [discriminate|];
          rewrite Hcode; apply dispatch_1|].
  pose proof (byte_val_range b0). pose proof (byte_val_range b1).
  unfold twos_complement16.
  destruct (Z.ltb_spec (256 * byte_val b0 + byte_val b1) 32768) as [Hlt|Hge].
  - split; [lia|]. split; [lia|]. apply Z.mod_small. lia.
  - split; [lia|]. split; [lia|].
    symmetry. apply Z.mod_unique with (q := -1); lia.
Qed.

(** Format 0x02 splits the 16-bit payload word without loss: the segment
    code is its top 6 bits, the unsigned value its low 10 bits, and
    [interpreted] is the unsigned value over the divisor. *)
Theorem decode_format_02_fields (channel_id fb b0 b1 : byte) :
  format_code fb = 2 ->
  exists segment_code unsigned_value,
    decode_format_and_data channel_id fb [b0; b1]
      = Return (Some (result_of channel_id fb [b0; b1]
                        (RawSegmentUnsigned segment_code unsigned_value)
                        (Scaled (scaled unsigned_value fb))))
    /\ 0 <= segment_code < 64
    /\ 0 <= unsigned_value < 1024
    /\ segment_code * 1024 + unsigned_value
       = 256 * byte_val b0 + byte_val b1.
Proof.
  intros Hcode.
  exists (byte_val b0 / 4), (256 * (byte_val b0 mod 4) + byte_val b1).
  pose proof (byte_val_range b0). pose proof (byte_val_range b1).
  pose proof (Z.mod_pos_bound (byte_val b0) 4 ltac:(lia)).
  pose proof (Z.div_mod (byte_val b0) 4 ltac:(lia)).
  split.
  { apply decode_of_dispatch; [discriminate|].
    rewrite Hcode, dispatch_2. cbv zeta.
    rewrite high_six_bits, low_two_bits, lor_shiftl_byte by lia.
    reflexivity. }
  split; [split; [apply Z.div_pos; lia|apply Z.div_lt_upper_bound; lia]|].
  split; lia.
Qed.

(** Format 0x08 splits the 16-bit payload word without loss: the segment
    code is its top 7 bits, the unsigned value its low 9 bits, and
    [interpreted] is the unsigned value over the divisor. *)
Theorem decode_format_08_fields (channel_id fb b0 b1 : byte) :
  format_code fb = 8 ->
  exists segment_code unsigned_value,
    decode_format_and_data channel_id fb [b0; b1]
      = Return (Some (result_of channel_id fb [b0; b1]
                        (RawSegmentUnsigned segment_code unsigned_value)
                        (Scaled (scaled unsigned_value fb))))
    /\ 0 <= segment_code < 128
    /\ 0 <= unsigned_value < 512
    /\ segment_code * 512 + unsigned_value
       = 256 * byte_val b0 + byte_val b1.
Proof.
  intros Hcode.
  exists (byte_val b0 / 2), (256 * (byte_val b0 mod 2) + byte_val b1).
  pose proof (byte_val_range b0). pose proof (byte_val_range b1).
  pose proof (Z.mod_pos_bound (byte_val b0) 2 ltac:(lia)).
  pose proof (Z.div_mod (byte_val b0) 2 ltac:(lia)).
  split.
  { apply decode_of_dispatch; [discriminate|].
    rewrite Hcode, dispatch_8. cbv zeta.
    rewrite high_seven_bits, low_bit, lor_shiftl_byte by lia.
    reflexivity. }
  split; [split; [apply Z.div_pos; lia|apply Z.div_lt_upper_bound; lia]|].
  split; lia.
Qed.

(** Format 0x03 with the sign flag set: the segment code is the top 7 bits
    of the payload word and the magnitude its low 9 bits; [raw] records the
    negated magnitude, while [interpreted] is the magnitude itself over the
    divisor, so it is never negative. *)
Theorem decode_format_03_sign_not_applied (channel_id fb b0 b1 : byte) :
  format_code fb = 3 -> 128 <= byte_val b0 ->
  exists segment_code magnitude,
    decode_format_and_data channel_id fb [b0; b1]
      = Return (Some (result_of channel_id fb [b0; b1]
                        (RawSegmentSigned segment_code (- magnitude))
                        (Scaled (scaled magnitude fb))))
    /\ 64 <= segment_code < 128
    /\ 0 <= magnitude < 512
    /\ segment_code * 512 + magnitude = 256 * byte_val b0 + byte_val b1.
Proof.
  intros Hcode Hsign.
  exists (byte_val b0 / 2), (256 * (byte_val b0 mod 2) + byte_val b1).
  pose proof (byte_val_range b0). pose proof (byte_val_range b1).
  pose proof (Z.mod_pos_bound (byte_val b0) 2 ltac:(lia)).
  pose proof (Z.div_mod (byte_val b0) 2 ltac:(lia)).
  split.
  { rewrite decode_format_03_sign_set by assumption. cbv zeta.
    rewrite high_seven_bits, low_bit, lor_shiftl_byte by lia.
    reflexivity. }
  split; [split; [apply Z.div_le_lower_bound; lia
                 |apply Z.div_lt_upper_bound; lia]|].
  split; lia.
Qed.

(** Format 0x04: the segment code is the first byte, the unsigned value the
    24-bit big-endian integer of the other three, so the two recompose to
    the 32-bit payload word, and [interpreted] is the unsigned value over
    the divisor. *)
Theorem decode_format_04_fields (channel_id fb b0 b1 b2 b3 : byte) :
  format_code fb = 4 ->
  exists unsigned_value,
    decode_format_and_data channel_id fb [b0; b1; b2; b3]
      = Return (Some (result_of channel_id fb [b0; b1; b2; b3]
                        (RawSegmentUnsigned (byte_val b0) unsigned_value)
                        (Scaled (scaled unsigned_value fb))))
    /\ 0 <= unsigned_value < 16777216
    /\ byte_val b0 * 16777216 + unsigned_value
       = int_from_bytes_big false [b0; b1; b2; b3].
Proof.
  intros Hcode.
  exists (65536 * byte_val b1 + 256 * byte_val b2 + byte_val b3).
  pose proof (byte_val_range b1). pose proof (byte_val_range b2).
  pose proof (byte_val_range b3).
  split; [apply decode_of_dispatch; [discriminate|];
          rewrite Hcode; apply dispatch_4|].
  split; [lia|].
  change (int_from_bytes_big false [b0; b1; b2; b3])
    with ((((0 * 256 + byte_val b0) * 256 + byte_val b1) * 256 + byte_val b2)
          * 256 + byte_val b3).
  lia.
Qed.

(** Format 0x05: [interpreted] is the duration of [payload[1]] hours,
    [payload[2]] minutes and [payload[3]] seconds, whatever the first
    payload byte and the divisor bits are; minutes and seconds are not
    reduced modulo 60, and the duration is at most 255:255:255. *)
Theorem decode_format_05_timer (channel_id fb b0 b1 b2 b3 : byte) :
  format_code fb = 5 ->
  exists total,
    decode_format_and_data channel_id fb [b0; b1; b2; b3]
      = Return (Some (result_of channel_id fb [b0; b1; b2; b3]
                        (RawTimer (byte_val b0) (byte_val b1) (byte_val b2)
                                  (byte_val b3))
                        (Timedelta total)))
    /\ total = 3600 * byte_val b1 + 60 * byte_val b2 + byte_val b3
    /\ 0 <= total <= 933555.
Proof.
  intros Hcode.
  exists (byte_val b1 * 3600 + byte_val b2 * 60 + byte_val b3).
  pose proof (byte_val_range b1). pose proof (byte_val_range b2).
  pose proof (byte_val_range b3).
  split; [apply decode_format_05; exact Hcode|]. split; lia.
Qed.

Lemma append_empty_r (s : string) : s +:+ "" = s.
Proof.
  induction s as [|c s IH]; [reflexivity|].
  change (String c (s +:+ "") = String c s). rewrite IH. reflexivity.
Qed.

(** Format 0x06: when the segment utility returns a string for each of the
    four payload bytes, [interpreted] is their concatenation in payload
    order and [raw] lists the four bytes as two-digit upper-case
    hexadecimal strings. *)
Theorem decode_format_06_text (channel_id fb b0 b1 b2 b3 : byte)
    (c0 c1 c2 c3 : string) :
  format_code fb = 6 ->
  convert_segment_b_to_char b0 = Return c0 ->
  convert_segment_b_to_char b1 = Return c1 ->
  convert_segment_b_to_char b2 = Return c2 ->
  convert_segment_b_to_char b3 = Return c3 ->
  decode_format_and_data channel_id fb [b0; b1; b2; b3]
  = Return (Some (result_of channel_id fb [b0; b1; b2; b3]
                    (RawHexList [format_02X b0; format_02X b1;
                                 format_02X b2; format_02X b3])
                    (Text (c0 +:+ c1 +:+ c2 +:+ c3)))).
Proof.
  intros Hcode H0 H1 H2 H3. apply decode_of_dispatch; [discriminate|].
  rewrite Hcode, dispatch_6, !for_each_cons, H0, H1, H2, H3.
  change (for_each convert_segment_b_to_char []) with (@Return (list string) []).
  cbn [bind fold_right map]. rewrite append_empty_r. reflexivity.
Qed.

(** *** More on the body loop *)

Lemma getitem_in_range {A} (l : list A) (i : Z) :
  0 <= i < len l -> exists x, getitem l i = Return x.
Proof.
  intros Hi. unfold getitem.
  destruct (Z.ltb_spec i 0) as [?|_]; [lia|].
  destruct (Z.ltb_spec i 0) as [?|_]; [lia|].
  destruct (Z.leb_spec (len l) i) as [?|_]; [lia|]. cbn [orb].
  destruct (l !! Z.to_nat i) as [x|] eqn:Hx; [eauto|].
  apply lookup_ge_None in Hx. unfold len in Hi. lia.
Qed.

Lemma bind_get_index {A} (k : Z -> stm A) (s : loop_state) :
  st_bind get_index k s = k (index s) s.
Proof. reflexivity. Qed.

Lemma bind_set_index {A} (i : Z) (k : unit -> stm A) (s : loop_state) :
  st_bind (set_index i) k s = k tt {| index := i; values := values s |}.
Proof. reflexivity. Qed.

Lemma bind_lift_return {A B} (a : A) (k : A -> stm B) (s : loop_state) :
  st_bind (st_lift (Return a)) k s = k a s.
Proof. reflexivity. Qed.

Lemma bind_lift_raise {A B} (e : exn) (k : A -> stm B) (s : loop_state) :
  st_bind (st_lift (Raise e)) k s = (Raise e, s).
Proof. reflexivity. Qed.

(** With the cursor on the last byte of the body, the turn changes
    nothing. *)
Lemma record_step_last_byte (body : list byte) (st : loop_state) :
  0 <= index st -> index st = len body - 1 -> record_step body st = st.
Proof.
  intros Hpos Hlast. unfold record_step, record_try.
  rewrite bind_get_index.
  destruct (getitem_in_range body (index st) ltac:(lia)) as [cid ->].
  rewrite bind_lift_return, getitem_end by lia.
  rewrite bind_lift_raise. reflexivity.
Qed.

(** With two bytes or more at the cursor, the turn moves the cursor past
    the record header, and past the payload too when the body holds it. *)
Lemma record_step_advance (body : list byte) (st : loop_state) :
  0 <= index st -> index st + 2 <= len body ->
  exists fb,
    (len body < index st + 2 + data_length_of fb
     /\ record_step body st
        = {| index := index st + 2; values := values st |})
    \/ (index st + 2 + data_length_of fb <= len body
        /\ index (record_step body st) = index st + 2 + data_length_of fb).
Proof.
  intros Hpos Hroom. unfold record_step, record_try.
  rewrite bind_get_index.
  destruct (getitem_in_range body (index st) ltac:(lia)) as [cid ->].
  rewrite bind_lift_return.
  destruct (getitem_in_range body (index st + 1) ltac:(lia)) as [fb ->].
  rewrite bind_lift_return, bind_set_index, bind_get_index. cbn [index values].
  exists fb. fold (format_code fb). fold (data_length_of fb).
  destruct (Z.ltb_spec (len body) (index st + 2 + data_length_of fb))
    as [Hlt|Hge].
  - left. split; [exact Hlt|reflexivity].
  - right. split; [exact Hge|].
    rewrite bind_set_index, decode_format_and_data_result, bind_lift_return.
    reflexivity.
Qed.

Lemma data_length_even (fb : byte) :
  even_sizes -> 0 <= data_length_of fb /\ Z.even (data_length_of fb) = true.
Proof.
  intros Heven. unfold data_length_of, dict_get.
  destruct (FORMAT_SIZE_MAP !! format_code fb) as [size|] eqn:Hsize; simpl.
  - exact (Heven _ _ Hsize).
  - split; [lia|reflexivity].
Qed.

(** Under an even size table the cursor stays even and inside the body. *)
Lemma record_step_even (body : list byte) (st : loop_state) :
  even_sizes ->
  0 <= index st -> index st + 2 <= len body -> Z.even (index st) = true ->
  index st + 2 <= index (record_step body st) <= len body
  /\ Z.even (index (record_step body st)) = true.
Proof.
  intros Heven Hpos Hroom Hparity.
  destruct (record_step_advance body st Hpos Hroom) as [fb Hstep].
  destruct (data_length_even fb Heven) as [Hnonneg Hdl].
  destruct Hstep as [[_ ->]|[Hle ->]]; cbn [index].
  - split; [lia|]. rewrite Z.even_add, Hparity. reflexivity.
  - split; [lia|]. rewrite !Z.even_add, Hparity, Hdl. reflexivity.
Qed.

Lemma body_loop_even_returns (body : list byte) :
  even_sizes -> Z.even (len body) = true ->
  forall (n : nat) (st : loop_state),
    0 <= index st <= len body -> Z.even (index st) = true ->
    len body - index st <= 2 * Z.of_nat n ->
    exists st', body_loop (S n) body st = Some st'.
Proof.
  intros Heven Hlen. induction n as [|n IH]; intros st Hrange Hparity Hleft.
  - cbn [body_loop]. destruct (Z.ltb_spec (index st) (len body)); [lia|eauto].
  - cbn [body_loop]. fold body_loop.
    destruct (Z.ltb_spec (index st) (len body)) as [Hlt|_]; [|eauto].
    assert (index st + 2 <= len body) as Hroom.
    { apply Z.even_spec in Hlen as [k Hk]. apply Z.even_spec in Hparity as [j Hj].
      lia. }
    destruct (record_step_even body st Heven ltac:(lia) Hroom Hparity)
      as [Hnext Hnext_parity].
    apply (IH (record_step body st)); [lia|exact Hnext_parity|lia].
Qed.

Lemma body_loop_odd_diverges (body : list byte) :
  even_sizes -> Z.odd (len body) = true ->
  forall (fuel : nat) (st : loop_state),
    0 <= index st < len body -> Z.even (index st) = true ->
    body_loop fuel body st = None.
Proof.
  intros Heven Hlen. induction fuel as [|fuel IH]; intros st Hrange Hparity;
    [reflexivity|].
  cbn [body_loop]. destruct (Z.ltb_spec (index st) (len body)); [|lia].
  destruct (Z.eq_dec (index st) (len body - 1)) as [Hlast|Hnot].
  - rewrite record_step_last_byte by lia. apply IH; assumption.
  - assert (index st + 2 <= len body) as Hroom by lia.
    destruct (record_step_even body st Heven ltac:(lia) Hroom Hparity)
      as [Hnext Hnext_parity].
    apply IH; [|exact Hnext_parity].
    assert (index (record_step body st) <> len body); [|lia].
    intros Heq. rewrite Heq in Hnext_parity.
    rewrite <- Z.negb_odd, Hlen in Hnext_parity. discriminate.
Qed.

(** When the size table holds even byte counts, [decode_frame] returns a
    decoded frame on every frame with matching checksums whose body has
    even length, after at most one turn of the loop per two body bytes. *)
Theorem decode_frame_even_body_returns (a b c d hc bc : byte)
    (body : list byte) (fuel : nat) :
  even_sizes ->
  calculate_checksum [a; b; c; d] = byte_val hc ->
  calculate_checksum body = byte_val bc ->
  Z.even (len body) = true ->
  (Z.to_nat (len body / 2) < fuel)%nat ->
  exists vals,
    decode_frame fuel ([a; b; c; d; hc] ++ body ++ [bc])
    = Some (decoded_header a b d vals).
Proof.
  intros Heven Hh Hb Hlen Hfuel. simpl app.
  rewrite decode_frame_long, removelast_last, last_last, Hh, Hb.
  rewrite !Z.eqb_refl. cbn [negb].
  pose proof (len_nonneg body) as Hnonneg.
  destruct (body_loop_even_returns body Heven Hlen (Z.to_nat (len body / 2))
              {| index := 0; values := ∅ |}) as [st Hst].
  - cbn [index]. lia.
  - reflexivity.
  - cbn [index]. apply Z.even_spec in Hlen as [k Hk]. rewrite Hk.
    rewrite (Z.mul_comm 2 k), Z.div_mul by lia. lia.
  - apply (body_loop_more_fuel _ (fuel - S (Z.to_nat (len body / 2)))) in Hst.
    replace (S (Z.to_nat (len body / 2))
             + (fuel - S (Z.to_nat (len body / 2))))%nat with fuel in Hst by lia.
    rewrite Hst. eauto.
Qed.

(** When the size table holds even byte counts, [decode_frame] never
    returns on a frame with matching checksums whose body has odd length:
    the cursor stays even and ends on the last byte, where the loop
    repeats. *)
Theorem decode_frame_odd_body_diverges (a b c d hc bc : byte)
    (body : list byte) :
  even_sizes ->
  calculate_checksum [a; b; c; d] = byte_val hc ->
  calculate_checksum body = byte_val bc ->
  Z.odd (len body) = true ->
  forall fuel : nat,
    decode_frame fuel ([a; b; c; d; hc] ++ body ++ [bc]) = None.
Proof.
  intros Heven Hh Hb Hlen fuel. simpl app.
  rewrite decode_frame_long, removelast_last, last_last, Hh, Hb.
  rewrite !Z.eqb_refl. cbn [negb].
  rewrite (body_loop_odd_diverges body Heven Hlen); [reflexivity| |reflexivity].
  cbn [index]. pose proof (len_nonneg body).
  destruct (Z.eq_dec (len body) 0) as [H0|]; [|lia].
  rewrite H0 in Hlen. discriminate.
Qed.

(** A record header at the end of the body whose payload is missing is
    skipped: the incomplete-data error leaves no entry for its channel, the
    loop ends, and the frame decodes with the values of the records before
    it. *)
Theorem decode_frame_incomplete_record_skipped (a b c d hc bc cid fb : byte)
    (recs : list channel_record) (fuel : nat) :
  calculate_checksum [a; b; c; d] = byte_val hc ->
  calculate_checksum (encode_records recs ++ [cid; fb]) = byte_val bc ->
  Forall record_sized recs ->
  0 < data_length_of fb ->
  (S (length recs) < fuel)%nat ->
  decode_frame fuel ([a; b; c; d; hc] ++ (encode_records recs ++ [cid; fb])
                     ++ [bc])
  = Some (decoded_header a b d (foldl store_record ∅ recs)).
Proof.
  intros Hh Hb Hsized Hdl Hfuel. simpl app.
  rewrite decode_frame_long, removelast_last, last_last, Hh, Hb.
  rewrite !Z.eqb_refl. cbn [negb].
  replace fuel with (length recs + S (S (fuel - S (S (length recs)))))%nat
    by lia.
  pose proof (body_loop_records recs (S (S (fuel - S (S (length recs)))))
                [] [cid; fb] ∅ Hsized) as Hrun.
  simpl app in Hrun. change (len []) with 0 in Hrun. rewrite Hrun.
  set (st := {| index := len (encode_records recs);
                values := foldl store_record ∅ recs |}).
  set (body := encode_records recs ++ [cid; fb]).
  assert (len body = len (encode_records recs) + 2) as Hlen.
  { unfold body. rewrite len_app. reflexivity. }
  pose proof (len_nonneg (encode_records recs)) as Hnonneg.
  cbn [body_loop]. fold body_loop.
  destruct (Z.ltb_spec (index st) (len body)) as [_|Hge];
    [|unfold st in Hge; cbn [index] in Hge; lia].
  assert (record_step body st
          = {| index := len body; values := foldl store_record ∅ recs |})
    as ->.
  { unfold record_step, record_try.
    rewrite bind_get_index. cbn [index st].
    unfold body at 1. rewrite getitem_app, bind_lift_return.
    replace (getitem body (len (encode_records recs) + 1)) with (Return fb).
    2:{ unfold body.
        pose proof (getitem_app (encode_records recs ++ [cid]) fb [])
          as Hget.
        rewrite len_app in Hget. change (len [cid]) with 1 in Hget.
        rewrite <- app_assoc in Hget. symmetry. exact Hget. }
    rewrite bind_lift_return, bind_set_index, bind_get_index.
    cbn [index values].
    fold (format_code fb). fold (data_length_of fb).
    destruct (Z.ltb_spec (len body)
                (len (encode_records recs) + 2 + data_length_of fb))
      as [_|?]; [|lia].
    cbn [st_raise snd]. rewrite Hlen. reflexivity. }
  cbn [index]. rewrite Z.ltb_irrefl. reflexivity.
Qed.

Lemma fold_store_dom (recs : list channel_record) :
  forall m : gmap string (option DecodedValue),
    dom (foldl store_record m recs)
    = dom m ∪ list_to_set (record_name <$> recs).
Proof.
  induction recs as [|r recs IH]; intros m; simpl.
  - rewrite (right_id_L ∅ (∪)). reflexivity.
  - rewrite IH. unfold store_record. rewrite dom_insert_L.
    rewrite (comm_L (∪) {[record_name r]} (dom m)).
    rewrite (assoc_L (∪)). reflexivity.
Qed.

Lemma fold_store_size (recs : list channel_record) :
  forall m : gmap string (option DecodedValue),
    (size (foldl store_record m recs) <= size m + length recs)%nat.
Proof.
  induction recs as [|r recs IH]; intros m; simpl; [lia|].
  etransitivity; [apply IH|]. unfold store_record.
  rewrite map_size_insert. destruct (m !! record_name r); unfold id; lia.
Qed.

(** On a frame with matching checksums whose body is a sequence of records
    of the expected size, [decode_frame] returns, for any fuel above the
    number of records, the header names and the mapping obtained by storing
    each record's result under its channel name in body order; the keys are
    exactly the channel names of the records.  The body-size byte [c] plays
    no part. *)
Theorem decode_frame_well_formed (a b c d hc bc : byte)
    (recs : list channel_record) (fuel : nat) :
  calculate_checksum [a; b; c; d] = byte_val hc ->
  calculate_checksum (encode_records recs) = byte_val bc ->
  Forall record_sized recs ->
  (length recs < fuel)%nat ->
  exists vals,
    decode_frame fuel (frame_of a b c d hc recs bc)
      = Some (DecodedFrame (lookup_name ADDRESS_LOOKUP a)
                           (lookup_name ADDRESS_LOOKUP b)
                           (lookup_name COMMAND_LOOKUP d) vals)
    /\ vals = foldl store_record ∅ recs
    /\ dom vals = list_to_set (record_name <$> recs)
    /\ (size vals <= length recs)%nat.
Proof.
  intros Hh Hb Hsized Hfuel. exists (foldl store_record ∅ recs).
  split; [apply decode_frame_records; assumption|].
  split; [reflexivity|].
  assert (dom (foldl store_record ∅ recs)
          = list_to_set (record_name <$> recs)) as Hdom.
  { rewrite fold_store_dom, dom_empty_L. apply (left_id_L ∅ (∪)). }
  split; [exact Hdom|].
  etransitivity; [apply fold_store_size|].
  rewrite map_size_empty. reflexivity.
Qed.

(** *** Channel names *)

Lemma hex_digit_upper_inj (d1 d2 : Z) :
  0 <= d1 < 16 -> 0 <= d2 < 16 ->
  hex_digit true d1 = hex_digit true d2 -> d1 = d2.
Proof.
  intros H1 H2 Heq.
  assert (In d1 [0; 1; 2; 3; 4; 5; 6; 7; 8; 9; 10; 11; 12; 13; 14; 15])
    as E1 by (simpl; lia).
  assert (In d2 [0; 1; 2; 3; 4; 5; 6; 7; 8; 9; 10; 11; 12; 13; 14; 15])
    as E2 by (simpl; lia).
  simpl in E1, E2.
  repeat (destruct E1 as [E1|E1]; [subst d1|]); [..|contradiction];
    (repeat (destruct E2 as [E2|E2]; [subst d2|]); [..|contradiction]);
    first [reflexivity | vm_compute in Heq; discriminate Heq].
Qed.

Lemma format_02X_inj (b1 b2 : byte) :
  format_02X b1 = format_02X b2 -> b1 = b2.
Proof.
  unfold format_02X, hex_byte. intros [= Hhi Hlo].
  destruct (nibbles b1) as (E1 & Hh1 & Hl1).
  destruct (nibbles b2) as (E2 & Hh2 & Hl2).
  apply hex_digit_upper_inj in Hhi; [|assumption..].
  apply hex_digit_upper_inj in Hlo; [|assumption..].
  apply byte_val_inj. lia.
Qed.

(** Two different channel ids that are both missing from the channel table
    get different fallback names, so their records never overwrite each
    other in the values mapping. *)
Theorem unknown_channels_do_not_collide (c1 c2 : byte) :
  CHANNEL_LOOKUP !! byte_val c1 = None ->
  CHANNEL_LOOKUP !! byte_val c2 = None ->
  c1 <> c2 ->
  lookup_name CHANNEL_LOOKUP c1 <> lookup_name CHANNEL_LOOKUP c2.
Proof.
  intros H1 H2 Hne Heq. apply Hne.
  unfold lookup_name, dict_get in Heq. rewrite H1, H2 in Heq. simpl in Heq.
  unfold unknown_name, format_02X, hex_byte in Heq.
  apply format_02X_inj. unfold format_02X, hex_byte.
  injection Heq as Hhi Hlo. congruence.
Qed.

(** *** More on the ASCII path *)

Lemma decode_ascii_all (data : list byte) :
  Forall (fun b => byte_val b < 128) data ->
  decode_ascii data = Return (text_of_bytes data).
Proof.
  induction 1 as [|b data Hb _ IH]; [reflexivity|].
  cbn [decode_ascii]. destruct (Z.ltb_spec (byte_val b) 128); [|lia].
  rewrite IH. reflexivity.
Qed.

Lemma decode_ascii_some (data : list byte) :
  Exists (fun b => 128 <= byte_val b) data ->
  decode_ascii data = Raise UnicodeDecodeError.
Proof.
  induction 1 as [b data Hb|b data _ IH]; cbn [decode_ascii];
    destruct (Z.ltb_spec (byte_val b) 128); try reflexivity; try lia.
  rewrite IH. reflexivity.
Qed.

Lemma lstrip_head (l : list ascii) (c : ascii) :
  head (lstrip l) = Some c -> is_space c = false.
Proof.
  induction l as [|a l IH]; [discriminate|].
  cbn [lstrip]. destruct (is_space a) eqn:Ha; [exact IH|].
  intros [= <-]. exact Ha.
Qed.

Lemma lstrip_suffix (l : list ascii) : exists pre, l = pre ++ lstrip l.
Proof.
  induction l as [|a l [pre IH]]; [exists []; reflexivity|].
  cbn [lstrip]. destruct (is_space a).
  - exists (a :: pre). simpl. rewrite <- IH. reflexivity.
  - exists []. reflexivity.
Qed.

Lemma last_rev_head {A} (l : list A) : last (rev l) = head l.
Proof. destruct l as [|x l]; [reflexivity|]. simpl. apply last_snoc. Qed.

(** [strip] leaves no whitespace at either end. *)
Lemma strip_trimmed (s : string) : trimmed (strip s).
Proof.
  unfold trimmed, strip. rewrite list_ascii_of_string_of_list_ascii.
  set (l1 := lstrip (list_ascii_of_string s)).
  split; intros c Hc.
  - destruct (lstrip_suffix (rev l1)) as [pre Hpre].
    apply (f_equal (@rev ascii)) in Hpre.
    rewrite rev_involutive, rev_app_distr in Hpre.
    apply (lstrip_head (list_ascii_of_string s)). fold l1. rewrite Hpre.
    destruct (rev (lstrip (rev l1))); [discriminate|exact Hc].
  - rewrite last_rev_head in Hc. exact (lstrip_head _ _ Hc).
Qed.

(** A frame of fewer than eight bytes has no room for a header, a channel
    id, a format byte and the body checksum: [decode_ascii_frame] returns
    the index error. *)
Theorem decode_ascii_frame_short (frame : list byte) :
  (length frame < 8)%nat ->
  decode_ascii_frame frame = FrameError "index out of range".
Proof.
  intros Hshort.
  destruct frame as [|a [|b [|c [|d [|hc [|x [|y [|z rest]]]]]]]];
    try reflexivity.
  simpl in Hshort. lia.
Qed.

(** A payload byte of 0x80 or more makes [decode_ascii_frame] return the
    ASCII-decode error for the whole frame. *)
Theorem decode_ascii_frame_non_ascii (a b c d hc cid fb bc : byte)
    (payload : list byte) :
  Exists (fun x => 128 <= byte_val x) payload ->
  decode_ascii_frame ([a; b; c; d; hc] ++ cid :: fb :: payload ++ [bc])
  = FrameError "ASCII decode failed".
Proof.
  intros Hbad. rewrite decode_ascii_frame_long, decode_ascii_some by exact Hbad.
  reflexivity.
Qed.

(** When every payload byte is below 0x80, [decode_ascii_frame] returns the
    header names and a values mapping with the single key of the channel;
    the entry's [raw] and [interpreted] are both the payload text stripped
    of the whitespace at its two ends; the format byte selects nothing. *)
Theorem decode_ascii_frame_text (a b c d hc cid fb bc : byte)
    (payload : list byte) :
  Forall (fun x => byte_val x < 128) payload ->
  exists text,
    decode_ascii_frame ([a; b; c; d; hc] ++ cid :: fb :: payload ++ [bc])
    = DecodedFrame (lookup_name ADDRESS_LOOKUP a)
                   (lookup_name ADDRESS_LOOKUP b)
                   (lookup_name COMMAND_LOOKUP d)
                   {[ lookup_name CHANNEL_LOOKUP cid :=
                        ascii_value_of cid fb payload text ]}
    /\ text = strip (text_of_bytes payload)
    /\ trimmed text.
Proof.
  intros Hascii. exists (strip (text_of_bytes payload)).
  split; [|split; [reflexivity|apply strip_trimmed]].
  rewrite decode_ascii_frame_long, decode_ascii_all by exact Hascii.
  reflexivity.
Qed.

End Decoder.

(** ** The properties on concrete frames *)

(** Format 0x03, payload [00 0A]: sign flag clear, rejected. *)
Lemma decode_format_03_sign_clear_witness :
  decode_format_and_data_try sample_segment_char x05 x03 [x00; x0a]
    = Raise (UnboundLocalError "signed_value")
  /\ decode_format_and_data sample_segment_char x05 x03 [x00; x0a]
     = Return None.
Proof.
  apply (decode_format_03_sign_clear sample_segment_char x05 x03 x00 x0a);
    reflexivity.
Defined.

(** Format bytes 0x41 and 0x71 (divisor 10, digits 1 and 4), payload
    [FF FE]. *)
Lemma interpreted_is_raw_over_divisor_witness :
  exists r r',
    decode_format_and_data sample_segment_char x05 x41 [xff; xfe]
      = Return (Some r)
    /\ decode_format_and_data sample_segment_char x05 x71 [xff; xfe]
       = Return (Some r')
    /\ dv_divisor r = divisor_of x41
    /\ scaled_from_raw x41 (dv_raw r) (dv_interpreted r)
    /\ dv_divisor r' = dv_divisor r
    /\ dv_interpreted r' = dv_interpreted r.
Proof.
  apply (interpreted_is_raw_over_divisor sample_segment_char x05 x41 x71
           [xff; xfe]).
  - left. reflexivity.
  - reflexivity.
  - reflexivity.
Defined.

(** C5 (as stated, refuted): format 0x05 is a supported code, the payload
    has the required four bytes, and [interpreted] is a duration, not a
    number over the divisor 10 of the format byte 0x45. *)
Lemma timer_interpreted_is_not_scaled :
  exists r,
    expected_length (format_code x45) = Some (len [x00; x01; x02; x03])
    /\ decode_format_and_data sample_segment_char x05 x45 [x00; x01; x02; x03]
       = Return (Some r)
    /\ dv_divisor r = 10
    /\ dv_interpreted r = Timedelta 3723
    /\ ~ scaled_from_raw x45 (dv_raw r) (dv_interpreted r).
Proof.
  eexists. split; [reflexivity|]. split; [reflexivity|].
  split; [reflexivity|]. split; [reflexivity|]. intros H. exact H.
Qed.

(** Format 0x07 with divisor 10, payload [00 00 FF 01]. *)
Lemma decode_format_07_witness :
  decode_format_and_data sample_segment_char x05 x47 [x00; x00; xff; x01]
  = Return (Some (result_of x05 x47 [x00; x00; xff; x01]
                    (RawInt 32513) (Scaled (scaled 32513 x47)))).
Proof.
  exact (proj1 (decode_format_07 sample_segment_char x05 x47 x00 x00 xff x01
                  eq_refl)).
Defined.

(** C7 (as stated, refuted): with payload [00 00 01 00] the raw value is 0,
    while [((payload[2] & 0x7F) << 8) | payload[3]] is 256. *)
Lemma decode_format_07_drops_low_bit :
  exists r,
    decode_format_and_data sample_segment_char x05 x07 [x00; x00; x01; x00]
      = Return (Some r)
    /\ dv_raw r = RawInt 0
    /\ Z.lor (Z.shiftl (Z.land (byte_val x01) 127) 8) (byte_val x00) = 256
    /\ dv_raw r
       <> RawInt (Z.lor (Z.shiftl (Z.land (byte_val x01) 127) 8) (byte_val x00)).
Proof.
  eexists. split; [reflexivity|]. split; [reflexivity|].
  split; [reflexivity|]. discriminate.
Qed.

(** Format 0x0A with divisor 10, payload [FF FE 01 00]: the pair
    (-2, 256). *)
Lemma decode_format_0A_witness :
  decode_format_and_data sample_segment_char x05 x4a [xff; xfe; x01; x00]
  = Return (Some (result_of x05 x4a [xff; xfe; x01; x00]
                    (RawPair (-2) 256)
                    (ScaledPair (scaled (-2) x4a) (scaled 256 x4a)))).
Proof.
  exact (decode_format_0A sample_segment_char x05 x4a xff xfe x01 x00 eq_refl).
Defined.

(** The text frame of channel 0x05 carrying ["12.3 "], with a header
    checksum byte 0x00 where 0xE9 is due. *)
Lemma decode_ascii_frame_skips_checksums_witness :
  let frame := [x01; x02; x04; x10; x00; x05; x0f;
                x31; x32; x2e; x33; x20; x00] in
  (decode_frame sum_checksum sample_segment_char ∅ ∅ ∅ sample_format_sizes
     1 frame = Some (FrameError "Header checksum mismatch")
   \/ decode_frame sum_checksum sample_segment_char ∅ ∅ ∅ sample_format_sizes
        1 frame = Some (FrameError "Body checksum mismatch"))
  /\ decode_ascii_frame ∅ ∅ ∅ frame
     = DecodedFrame (lookup_name ∅ x01) (lookup_name ∅ x02) (lookup_name ∅ x10)
         {[ lookup_name ∅ x05 :=
              {| av_channel_id := "0x05";
                 av_format_byte := "0x0F";
                 av_data_bytes := "31322e3320";
                 av_raw := "12.3";
                 av_interpreted := "12.3" |} ]}.
Proof.
  apply (decode_ascii_frame_skips_checksums sum_checksum sample_segment_char
           ∅ ∅ ∅ sample_format_sizes 1 x01 x02 x04 x10 x00 x05 x0f x00
           [x31; x32; x2e; x33; x20] "12.3 ").
  - left. vm_compute. discriminate.
  - reflexivity.
Defined.

(** A body of two records: channel 0x05 with the unsupported format 0x0F
    and no payload, then channel 0x06 with format 0x01 and payload
    [00 0A]. *)
Lemma decode_frame_rejected_record_stored_witness :
  let bad := {| rec_channel_id := x05; rec_format_byte := x0f;
                rec_payload := [] |} in
  let good := {| rec_channel_id := x06; rec_format_byte := x01;
                 rec_payload := [x00; x0a] |} in
  exists vals,
    decode_frame sum_checksum sample_segment_char ∅ ∅ ∅ sample_format_sizes
      3 (frame_of x01 x02 x06 x10 xe7 [bad; good] xdb)
      = Some (decoded_header ∅ ∅ x01 x02 x10 vals)
    /\ vals !! record_name ∅ bad = Some None
    /\ (forall r', r' ∈ [bad; good] -> is_Some (vals !! record_name ∅ r'))
    /\ (forall pre' r' post',
           [bad; good] = pre' ++ r' :: post' ->
           Forall (fun r'' => record_name ∅ r'' <> record_name ∅ r') post' ->
           vals !! record_name ∅ r'
           = Some (record_result sample_segment_char r')).
Proof.
  intros bad good.
  apply (decode_frame_rejected_record_stored sum_checksum sample_segment_char
           ∅ ∅ ∅ sample_format_sizes x01 x02 x06 x10 xe7 xdb [] [good] bad).
  - reflexivity.
  - reflexivity.
  - repeat constructor.
  - left. reflexivity.
  - repeat constructor. vm_compute. discriminate.
Defined.

(** C2 (as stated, refuted): on that frame the rejected record's channel
    name is not absent from the values mapping: it is a key, bound to
    [None]. *)
Lemma rejected_record_is_not_absent :
  exists vals,
    decode_frame sum_checksum sample_segment_char ∅ ∅ ∅ sample_format_sizes 3
      [x01; x02; x06; x10; xe7; x05; x0f; x06; x01; x00; x0a; xdb]
      = Some (DecodedFrame "Unknown (0x01)" "Unknown (0x02)" "Unknown (0x10)"
                           vals)
    /\ decode_format_and_data sample_segment_char x05 x0f [] = Return None
    /\ vals !! "Unknown (0x05)" = Some None
    /\ vals !! "Unknown (0x05)" <> None
    /\ is_Some (vals !! "Unknown (0x06)").
Proof.
  eexists. split; [vm_compute; reflexivity|].
  split; [reflexivity|].
  split; [vm_compute; reflexivity|].
  split; [vm_compute; discriminate|].
  vm_compute. eauto.
Qed.

(** A frame whose body is the single byte 0x05. *)
Lemma decode_frame_trailing_byte_diverges_witness :
  (sum_checksum [x01; x02; x01; x10] = byte_val xec
   /\ sum_checksum [x05] = byte_val xfb)
  /\ (forall fuel : nat,
        decode_frame sum_checksum sample_segment_char ∅ ∅ ∅
          sample_format_sizes fuel [x01; x02; x01; x10; xec; x05; xfb]
        = None).
Proof.
  split; [split; reflexivity|].
  apply (decode_frame_trailing_byte_diverges sum_checksum sample_segment_char
           ∅ ∅ ∅ sample_format_sizes x01 x02 x01 x10 xec xfb x05 []).
  - reflexivity.
  - reflexivity.
  - constructor.
Defined.

(** Channel 0x05 twice, with payloads [00 0A] and then [00 14]. *)
Lemma decode_frame_later_record_wins_witness :
  let first := {| rec_channel_id := x05; rec_format_byte := x01;
                  rec_payload := [x00; x0a] |} in
  let second := {| rec_channel_id := x05; rec_format_byte := x01;
                   rec_payload := [x00; x14] |} in
  exists vals,
    decode_frame sum_checksum sample_segment_char ∅ ∅ ∅ sample_format_sizes
      3 (frame_of x01 x02 x08 x10 xe5 [first; second] xd6)
      = Some (decoded_header ∅ ∅ x01 x02 x10 vals)
    /\ vals !! record_name ∅ first
       = Some (record_result sample_segment_char second).
Proof.
  intros first second.
  apply (decode_frame_later_record_wins sum_checksum sample_segment_char
           ∅ ∅ ∅ sample_format_sizes x01 x02 x08 x10 xe5 xd6
           [] [] [] first second).
  - reflexivity.
  - reflexivity.
  - repeat constructor.
  - reflexivity.
  - constructor.
Defined.

(** ** Further properties on concrete inputs *)

Lemma sample_format_sizes_even : even_sizes sample_format_sizes.
Proof.
  intros code size Hsize. unfold sample_format_sizes in Hsize.
  destruct (decide (code = 1)) as [->|Hne].
  - rewrite lookup_insert_eq in Hsize. injection Hsize as <-.
    split; [lia|reflexivity].
  - rewrite lookup_insert_ne, lookup_empty in Hsize by congruence.
    discriminate.
Qed.

Lemma decode_frame_short_witness :
  decode_frame sum_checksum sample_segment_char ∅ ∅ ∅ sample_format_sizes
    1 [x01; x02; x04] = Some (FrameError "index out of range").
Proof.
  apply (decode_frame_short sum_checksum sample_segment_char ∅ ∅ ∅
           sample_format_sizes 1 [x01; x02; x04]).
  simpl. lia.
Defined.

Lemma decoded_value_invariant_witness :
  let r := result_of x05 x41 [xff; xfe] (RawInt (-2))
             (Scaled (scaled (-2) x41)) in
  In (dv_divisor r) [1; 10; 100; 1000]
  /\ 1 <= dv_digits r <= 4
  /\ dv_format_bits r = format_code x41
  /\ expected_length (dv_format_bits r) = Some (len [xff; xfe])
  /\ dv_channel_id r = "0x" +:+ format_02X x05
  /\ dv_format_byte r = "0x" +:+ format_02X x41
  /\ dv_data_bytes r = hex [xff; xfe]
  /\ String.length (dv_data_bytes r) = (2 * length [xff; xfe])%nat.
Proof.
  exact (decoded_value_invariant sample_segment_char x05 x41 [xff; xfe] _
           eq_refl).
Defined.

Lemma digits_bits_irrelevant_witness :
  divisor_of x43 = divisor_of x73
  /\ dv_interpreted <$> decode_result sample_segment_char x05 x43 [x81; x0a]
     = dv_interpreted <$> decode_result sample_segment_char x06 x73 [x81; x0a].
Proof.
  apply (digits_bits_irrelevant sample_segment_char x05 x06 x43 x73
           [x81; x0a]).
  reflexivity.
Defined.

Lemma decode_format_01_range_witness :
  exists raw,
    decode_format_and_data sample_segment_char x05 x01 [xff; xfe]
      = Return (Some (result_of x05 x01 [xff; xfe]
                        (RawInt raw) (Scaled (scaled raw x01))))
    /\ -32768 <= raw <= 32767
    /\ (raw < 0 <-> 128 <= byte_val xff)
    /\ raw mod 65536 = 256 * byte_val xff + byte_val xfe.
Proof.
  exact (decode_format_01_range sample_segment_char x05 x01 xff xfe eq_refl).
Defined.

Lemma decode_format_02_fields_witness :
  exists segment_code unsigned_value,
    decode_format_and_data sample_segment_char x05 x42 [xab; xcd]
      = Return (Some (result_of x05 x42 [xab; xcd]
                        (RawSegmentUnsigned segment_code unsigned_value)
                        (Scaled (scaled unsigned_value x42))))
    /\ 0 <= segment_code < 64
    /\ 0 <= unsigned_value < 1024
    /\ segment_code * 1024 + unsigned_value
       = 256 * byte_val xab + byte_val xcd.
Proof.
  exact (decode_format_02_fields sample_segment_char x05 x42 xab xcd eq_refl).
Defined.

Lemma decode_format_08_fields_witness :
  exists segment_code unsigned_value,
    decode_format_and_data sample_segment_char x05 x48 [xab; xcd]
      = Return (Some (result_of x05 x48 [xab; xcd]
                        (RawSegmentUnsigned segment_code unsigned_value)
                        (Scaled (scaled unsigned_value x48))))
    /\ 0 <= segment_code < 128
    /\ 0 <= unsigned_value < 512
    /\ segment_code * 512 + unsigned_value
       = 256 * byte_val xab + byte_val xcd.
Proof.
  exact (decode_format_08_fields sample_segment_char x05 x48 xab xcd eq_refl).
Defined.

Lemma decode_format_03_sign_not_applied_witness :
  exists segment_code magnitude,
    decode_format_and_data sample_segment_char x05 x43 [x81; x0a]
      = Return (Some (result_of x05 x43 [x81; x0a]
                        (RawSegmentSigned segment_code (- magnitude))
                        (Scaled (scaled magnitude x43))))
    /\ 64 <= segment_code < 128
    /\ 0 <= magnitude < 512
    /\ segment_code * 512 + magnitude = 256 * byte_val x81 + byte_val x0a.
Proof.
  apply (decode_format_03_sign_not_applied sample_segment_char x05 x43 x81
           x0a); [reflexivity|]. vm_compute. discriminate.
Defined.

Lemma decode_format_04_fields_witness :
  exists unsigned_value,
    decode_format_and_data sample_segment_char x05 x44 [x07; x01; x00; x03]
      = Return (Some (result_of x05 x44 [x07; x01; x00; x03]
                        (RawSegmentUnsigned (byte_val x07) unsigned_value)
                        (Scaled (scaled unsigned_value x44))))
    /\ 0 <= unsigned_value < 16777216
    /\ byte_val x07 * 16777216 + unsigned_value
       = int_from_bytes_big false [x07; x01; x00; x03].
Proof.
  exact (decode_format_04_fields sample_segment_char x05 x44 x07 x01 x00 x03
           eq_refl).
Defined.

Lemma decode_format_05_timer_witness :
  exists total,
    decode_format_and_data sample_segment_char x05 x45 [xff; x19; x3d; x3e]
      = Return (Some (result_of x05 x45 [xff; x19; x3d; x3e]
                        (RawTimer (byte_val xff) (byte_val x19)
                                  (byte_val x3d) (byte_val x3e))
                        (Timedelta total)))
    /\ total = 3600 * byte_val x19 + 60 * byte_val x3d + byte_val x3e
    /\ 0 <= total <= 933555.
Proof.
  exact (decode_format_05_timer sample_segment_char x05 x45 xff x19 x3d x3e
           eq_refl).
Defined.

Lemma decode_format_06_text_witness :
  decode_format_and_data sample_segment_char x05 x06 [x00; x01; x00; x03]
  = Return (Some (result_of x05 x06 [x00; x01; x00; x03]
                    (RawHexList [format_02X x00; format_02X x01;
                                 format_02X x00; format_02X x03])
                    (Text (" " +:+ "?" +:+ " " +:+ "?")))).
Proof.
  exact (decode_format_06_text sample_segment_char x05 x06 x00 x01 x00 x03
           " " "?" " " "?" eq_refl eq_refl eq_refl eq_refl eq_refl).
Defined.

Lemma decode_frame_even_body_returns_witness :
  exists vals,
    decode_frame sum_checksum sample_segment_char ∅ ∅ ∅ sample_format_sizes
      3 ([x01; x02; x04; x10; xe9] ++ [x05; x01; x00; x0a] ++ [xf0])
    = Some (decoded_header ∅ ∅ x01 x02 x10 vals).
Proof.
  apply (decode_frame_even_body_returns sum_checksum sample_segment_char
           ∅ ∅ ∅ sample_format_sizes x01 x02 x04 x10 xe9 xf0
           [x05; x01; x00; x0a] 3).
  - exact sample_format_sizes_even.
  - reflexivity.
  - reflexivity.
  - reflexivity.
  - vm_compute. lia.
Defined.

Lemma decode_frame_odd_body_diverges_witness :
  (sum_checksum [x01; x02; x03; x10] = byte_val xea
   /\ sum_checksum [x05; x01; x00] = byte_val xfa)
  /\ (forall fuel : nat,
        decode_frame sum_checksum sample_segment_char ∅ ∅ ∅
          sample_format_sizes fuel
          ([x01; x02; x03; x10; xea] ++ [x05; x01; x00] ++ [xfa])
        = None).
Proof.
  split; [split; reflexivity|].
  apply (decode_frame_odd_body_diverges sum_checksum sample_segment_char
           ∅ ∅ ∅ sample_format_sizes x01 x02 x03 x10 xea xfa
           [x05; x01; x00]).
  - exact sample_format_sizes_even.
  - reflexivity.
  - reflexivity.
  - reflexivity.
Defined.

Lemma decode_frame_incomplete_record_skipped_witness :
  decode_frame sum_checksum sample_segment_char ∅ ∅ ∅ sample_format_sizes 2
    ([x01; x02; x02; x10; xeb] ++ (encode_records [] ++ [x05; x01]) ++ [xfa])
  = Some (decoded_header ∅ ∅ x01 x02 x10 (foldl (store_record sample_segment_char ∅) ∅ [])).
Proof.
  apply (decode_frame_incomplete_record_skipped sum_checksum
           sample_segment_char ∅ ∅ ∅ sample_format_sizes
           x01 x02 x02 x10 xeb xfa x05 x01 [] 2).
  - reflexivity.
  - reflexivity.
  - constructor.
  - reflexivity.
  - simpl. lia.
Defined.

Lemma decode_frame_well_formed_witness :
  let good := {| rec_channel_id := x05; rec_format_byte := x01;
                 rec_payload := [x00; x0a] |} in
  exists vals,
    decode_frame sum_checksum sample_segment_char ∅ ∅ ∅ sample_format_sizes
      2 (frame_of x01 x02 x04 x10 xe9 [good] xf0)
      = Some (DecodedFrame (lookup_name ∅ x01) (lookup_name ∅ x02)
                           (lookup_name ∅ x10) vals)
    /\ vals = foldl (store_record sample_segment_char ∅) ∅ [good]
    /\ dom vals = list_to_set (record_name ∅ <$> [good])
    /\ (size vals <= length [good])%nat.
Proof.
  intros good.
  apply (decode_frame_well_formed sum_checksum sample_segment_char ∅ ∅ ∅
           sample_format_sizes x01 x02 x04 x10 xe9 xf0 [good] 2).
  - reflexivity.
  - reflexivity.
  - repeat constructor.
  - simpl. lia.
Defined.

Lemma unknown_channels_do_not_collide_witness :
  lookup_name (∅ : gmap Z string) x05 <> lookup_name ∅ x06.
Proof.
  apply (unknown_channels_do_not_collide ∅ x05 x06);
    [reflexivity|reflexivity|discriminate].
Defined.

Lemma decode_ascii_frame_short_witness :
  decode_ascii_frame ∅ ∅ ∅ [x01; x02; x04; x10; x00; x05; x00]
  = FrameError "index out of range".
Proof.
  apply (decode_ascii_frame_short ∅ ∅ ∅ [x01; x02; x04; x10; x00; x05; x00]).
  simpl. lia.
Defined.

Lemma decode_ascii_frame_non_ascii_witness :
  decode_ascii_frame ∅ ∅ ∅
    ([x01; x02; x04; x10; x00] ++ x05 :: x0f :: [x31; xf3] ++ [x00])
  = FrameError "ASCII decode failed".
Proof.
  apply (decode_ascii_frame_non_ascii ∅ ∅ ∅ x01 x02 x04 x10 x00 x05 x0f x00
           [x31; xf3]).
  apply Exists_cons_tl, Exists_cons_hd. vm_compute. discriminate.
Defined.

Lemma decode_ascii_frame_text_witness :
  exists text,
    decode_ascii_frame ∅ ∅ ∅
      ([x01; x02; x04; x10; x00] ++ x05 :: x0f
         :: [x20; x31; x32; x2e; x33; x20] ++ [x00])
    = DecodedFrame (lookup_name ∅ x01) (lookup_name ∅ x02) (lookup_name ∅ x10)
        {[ lookup_name ∅ x05 :=
             ascii_value_of x05 x0f [x20; x31; x32; x2e; x33; x20] text ]}
    /\ text = strip (text_of_bytes [x20; x31; x32; x2e; x33; x20])
    /\ trimmed text.
Proof.
  apply (decode_ascii_frame_text ∅ ∅ ∅ x01 x02 x04 x10 x00 x05 x0f x00
           [x20; x31; x32; x2e; x33; x20]).
  repeat constructor.
Defined.
